(** * Background tasks of [temba.flows.tasks]

    A shallow embedding of the periodic tasks of [temba/flows/tasks.py]
    (run expiry, run timeouts, flow-stat cache repair, run-count squashing)
    as functions on an explicit world state, with Python exceptions and a
    blocking lock acquisition made explicit in the result type. *)

From Stdlib Require Import ZArith Bool Ascii String List Lia.
From Stdlib Require Import DecimalString DecimalZ DecimalPos.
From stdpp Require Import base option list strings gmap.

Open Scope string_scope.
Open Scope Z_scope.

(** ** Python builtins used by the tasks *)

Module Py.

(** [bool(x)] for the value of [r.get(key)]: [None] and the empty string
    are false, every other string is true. *)
Definition truthy (o : option string) : bool :=
  match o with
  | None => false
  | Some EmptyString => false
  | Some (String _ _) => true
  end.

(** The characters [str.isspace] accepts in a byte string. *)
Definition isspace (c : ascii) : bool :=
  let n := nat_of_ascii c in
  (Nat.eqb n 32 || (Nat.leb 9 n && Nat.leb n 13))%bool.

Fixpoint lstrip (s : string) : string :=
  match s with
  | EmptyString => EmptyString
  | String c r => if isspace c then lstrip r else s
  end.

Fixpoint rstrip (s : string) : string :=
  match s with
  | EmptyString => EmptyString
  | String c r =>
      match rstrip r with
      | EmptyString => if isspace c then EmptyString else String c EmptyString
      | r' => String c r'
      end
  end.

Definition strip (s : string) : string := rstrip (lstrip s).

(** No white space anywhere in [s]. *)
Fixpoint nospace (s : string) : bool :=
  match s with
  | EmptyString => true
  | String c r => negb (isspace c) && nospace r
  end.

(** One or more decimal digits, read as a natural number. *)
Definition digits (s : string) : option Z :=
  Z.of_uint <$> NilZero.uint_of_string s.

(** [int(s)] in base ten: surrounding white space, an optional sign, then
    digits; [None] stands for [ValueError]. *)
Definition int (s : string) : option Z :=
  match strip s with
  | String "+" r => digits r
  | String "-" r => Z.opp <$> digits r
  | t => digits t
  end.

(** [str(n)], also what ["%d" % n] prints. *)
Definition str (n : Z) : string := NilZero.string_of_int (Z.to_int n).

End Py.

(** ** Data model *)

(** A time stamp, as a number of clock ticks. *)
Definition datetime := Z.

Module Contact.
Record t := { id : Z; is_test : bool }.
End Contact.

Module Flow.
Record t := { pk : Z; org_pk : Z }.
End Flow.

(** The kinds of cached flow statistics; the tasks only use one. *)
Inductive FlowStatsCache := runs_started_count.

Module FlowRun.

Inductive ExitType := EXIT_TYPE_COMPLETED | EXIT_TYPE_INTERRUPTED | EXIT_TYPE_EXPIRED.

Record t := {
  id : Z;
  org_id : Z;
  flow_id : Z;
  contact : Contact.t;
  is_active : bool;
  expires_on : option datetime;
  timeout_on : option datetime;
  exit_type : option ExitType
}.

(** A lazy query set over the run table: its [WHERE] clause. *)
Definition QuerySet := t -> bool.

(** The field lookup [field__lte=v]; a [NULL] field matches nothing. *)
Definition lte (field : option datetime) (v : datetime) : bool :=
  match field with
  | Some d => d <=? v
  | None => false
  end.

(** [qs.only(...)] defers the loading of the other columns; the rows and
    the values read from them are the same. *)
Definition only (fields : list string) (qs : QuerySet) : QuerySet := qs.

(** The rows a query set yields when it is iterated, in table order. *)
Definition rows (qs : QuerySet) (table : list t) : list t := List.filter qs table.

Definition exited (et : ExitType) (r : t) : t :=
  {| id := id r; org_id := org_id r; flow_id := flow_id r; contact := contact r;
     is_active := false; expires_on := expires_on r; timeout_on := timeout_on r;
     exit_type := Some et |}.

(** Modelled from the spec: [FlowRun.bulk_exit] of [temba.flows.models],
    whose source is not available. Section 4.1: it marks all matched runs
    inactive with the given exit type in a single logical operation, and
    touches no other run. *)
Definition bulk_exit_table (qs : QuerySet) (et : ExitType) (table : list t) : list t :=
  List.map (fun r => if qs r then exited et r else r) table.

End FlowRun.

Module FlowRunCount.

(** One increment (or one aggregate) of the runs counter of a flow. *)
Record t := { flow_id : Z; count : Z }.

Definition total (fid : Z) (table : list t) : Z :=
  fold_right Z.add 0 (List.map count (List.filter (fun c => flow_id c =? fid) table)).

(** The flows that have counter rows, each once, in order of first row. *)
Fixpoint flow_ids (table : list t) : list Z :=
  match table with
  | [] => []
  | c :: rest => flow_id c :: List.filter (fun f => negb (f =? flow_id c)) (flow_ids rest)
  end.

(** Modelled from the spec: [FlowRunCount.squash_counts] of
    [temba.flows.models], whose source is not available. Section 4.3: it
    collapses all per-flow run-counter increments into aggregate rows, one
    row per flow holding the sum of that flow's rows. *)
Definition squash_counts_table (table : list t) : list t :=
  List.map (fun f => {| flow_id := f; count := total f table |}) (flow_ids table).

End FlowRunCount.

(** Values of the task payload dictionaries. *)
Inductive PyVal :=
| VStr (s : string)
| VInt (n : Z)
| VDatetime (d : option datetime).

(** One entry of the event dispatch queue, as the arguments of [push_task]. *)
Record QueuedTask := {
  task_org : Z;
  task_queue : string;
  task_name : string;
  task_args : gmap string PyVal
}.

(** A celery task sent with [.delay(arg)], by its registered name. *)
Record Delayed := { delayed_task : string; delayed_arg : Z }.

(** Modelled from the spec: the constants [TIMEOUT_EVENT], [HANDLER_QUEUE]
    and [HANDLE_EVENT_TASK] of [temba.msgs.models], whose source is not
    available. Sections 4.2 and 6 give the payload type ["timeout"], the
    queue name ["handler"] and the task type ["handle_event"]. *)
Definition TIMEOUT_EVENT : string := "timeout".
Definition HANDLER_QUEUE : string := "handler".
Definition HANDLE_EVENT_TASK : string := "handle_event".

(** Everything the tasks read or write. *)
Record World := {
  redis : gmap string string;          (* [get_redis_connection()] *)
  flows : list Flow.t;                 (* [Flow.objects] *)
  runs : list FlowRun.t;               (* [FlowRun.objects] *)
  counts : list FlowRunCount.t;        (* [FlowRunCount.objects] *)
  queue : list QueuedTask;             (* tasks published by [push_task], oldest first *)
  logged : list string;                (* [logger.error] lines, oldest first *)
  delayed : list Delayed               (* tasks sent with [.delay], oldest first *)
}.

Definition set_redis (f : gmap string string -> gmap string string) (w : World) : World :=
  {| redis := f (redis w); flows := flows w; runs := runs w; counts := counts w;
     queue := queue w; logged := logged w; delayed := delayed w |}.

Definition set_runs (f : list FlowRun.t -> list FlowRun.t) (w : World) : World :=
  {| redis := redis w; flows := flows w; runs := f (runs w); counts := counts w;
     queue := queue w; logged := logged w; delayed := delayed w |}.

Definition set_counts (f : list FlowRunCount.t -> list FlowRunCount.t) (w : World) : World :=
  {| redis := redis w; flows := flows w; runs := runs w; counts := f (counts w);
     queue := queue w; logged := logged w; delayed := delayed w |}.

Definition set_queue (f : list QueuedTask -> list QueuedTask) (w : World) : World :=
  {| redis := redis w; flows := flows w; runs := runs w; counts := counts w;
     queue := f (queue w); logged := logged w; delayed := delayed w |}.

Definition set_logged (f : list string -> list string) (w : World) : World :=
  {| redis := redis w; flows := flows w; runs := runs w; counts := counts w;
     queue := queue w; logged := f (logged w); delayed := delayed w |}.

Definition set_delayed (f : list Delayed -> list Delayed) (w : World) : World :=
  {| redis := redis w; flows := flows w; runs := runs w; counts := counts w;
     queue := queue w; logged := logged w; delayed := f (delayed w) |}.

(** ** Effects: world passing, exceptions, blocking *)

Inductive Exn :=
| DoesNotExist              (* [Flow.objects.get] found no row *)
| MultipleObjectsReturned   (* [Flow.objects.get] found several rows *)
| ValueError                (* [int(...)] of something that is no number *)
| PushError.                (* the publish call failed *)

(** What running a piece of code in a world gives: a value and the new
    world, an exception and the world at the point it was raised, or a
    wait on a lock that another holder has to release. *)
Inductive Res (A : Type) :=
| Ret (a : A) (w : World)
| Raise (e : Exn) (w : World)
| Blocked.
Arguments Ret {A} a w.
Arguments Raise {A} e w.
Arguments Blocked {A}.

Definition M (A : Type) : Type := World -> Res A.

Definition ret {A} (a : A) : M A := fun w => Ret a w.

Definition raise {A} (e : Exn) : M A := fun w => Raise e w.

Definition bind {A B} (c : M A) (k : A -> M B) : M B := fun w =>
  match c w with
  | Ret a w' => k a w'
  | Raise e w' => Raise e w'
  | Blocked => Blocked
  end.

Notation "'let!' x ':=' c 'in' k" := (bind c (fun x => k))
  (at level 10, x name, c at level 100, k at level 200, only parsing).

Definition gets {A} (f : World -> A) : M A := fun w => Ret (f w) w.

Definition modify (f : World -> World) : M unit := fun w => Ret tt (f w).

(** [for x in xs: body(x)]: an exception in one iteration ends the loop. *)
Fixpoint for_each {A} (xs : list A) (body : A -> M unit) : M unit :=
  match xs with
  | [] => ret tt
  | x :: rest => let! _ := body x in for_each rest body
  end.

(** The world a result ends in, when there is one. *)
Definition world_of {A} (r : Res A) : option World :=
  match r with
  | Ret _ w => Some w
  | Raise _ w => Some w
  | Blocked => None
  end.

Definition returns {A} (r : Res A) : bool :=
  match r with
  | Ret _ _ => true
  | _ => false
  end.

(** ** The collaborators of the tasks *)

(** [r.get(key)] *)
Definition redis_get (key : string) : M (option string) :=
  gets (fun w => redis w !! key).

(** [Flow.objects.get(pk=...)] *)
Definition Flow_objects_get (pk : Z) : M Flow.t := fun w =>
  match List.filter (fun f => Flow.pk f =? pk) (flows w) with
  | [] => Raise DoesNotExist w
  | [f] => Ret f w
  | _ :: _ :: _ => Raise MultipleObjectsReturned w
  end.

(** [flow.runs.filter(contact__is_test=False)] *)
Definition real_runs_of (flow : Flow.t) : FlowRun.QuerySet :=
  fun r => (FlowRun.flow_id r =? Flow.pk flow) && negb (Contact.is_test (FlowRun.contact r)).

(** [qs.count()] *)
Definition qs_count (qs : FlowRun.QuerySet) : M Z :=
  gets (fun w => Z.of_nat (length (FlowRun.rows qs (runs w)))).

(** Evaluating a query set at the head of a [for] loop. *)
Definition qs_iter (qs : FlowRun.QuerySet) : M (list FlowRun.t) :=
  gets (fun w => FlowRun.rows qs (runs w)).

(** [int(s)] *)
Definition py_int (s : string) : M Z :=
  match Py.int s with
  | Some n => ret n
  | None => raise ValueError
  end.

(** [logger.error(line)] *)
Definition logger_error (line : string) : M unit :=
  modify (set_logged (fun l => (l ++ [line])%list)).

(** [task.delay(arg)] for the task registered under [name] *)
Definition delay (name : string) (arg : Z) : M unit :=
  modify (set_delayed (fun l => (l ++ [{| delayed_task := name; delayed_arg := arg |}])%list)).

(** Modelled from the spec: [FlowRun.bulk_exit], as an effect on the run
    table; see [FlowRun.bulk_exit_table]. *)
Definition bulk_exit (qs : FlowRun.QuerySet) (et : FlowRun.ExitType) : M unit :=
  modify (set_runs (FlowRun.bulk_exit_table qs et)).

(** Modelled from the spec: [FlowRunCount.squash_counts], as an effect on
    the counter table; see [FlowRunCount.squash_counts_table]. *)
Definition squash_counts : M unit :=
  modify (set_counts FlowRunCount.squash_counts_table).

Section Tasks.

(** The token [Lock.acquire] stores under the lock name. *)
Variable lock_token : string.

(** Which publish calls fail. *)
Variable push_fails : QueuedTask -> bool.

(** Modelled from the spec: [Flow.get_stats_cache_key] of
    [temba.flows.models], whose source is not available. Section 6: one
    key of the cache store per flow and kind of statistic. *)
Variable get_stats_cache_key : Flow.t -> FlowStatsCache -> string.

(** [with r.lock(key, timeout=...): body]. Entering waits while the name
    is taken, then stores the token; leaving, also by an exception,
    deletes it. No time passes inside a task, so the time to live of the
    entry plays no part. *)
Definition redis_lock {A} (key : string) (timeout : Z) (body : M A) : M A := fun w =>
  match redis w !! key with
  | Some _ => Blocked
  | None =>
      match body (set_redis (insert key lock_token) w) with
      | Ret a w' => Ret a (set_redis (delete key) w')
      | Raise e w' => Raise e (set_redis (delete key) w')
      | Blocked => Blocked
      end
  end.

(** Modelled from the spec: [push_task] of [temba.utils.queues], whose
    source is not available. Section 6: the publish call takes the
    organization, the queue name, the task type and the payload, and the
    event dispatch queue accepts that tuple; section 7: the call can
    fail. *)
Definition push_task (org : Z) (queue_name task : string) (args : gmap string PyVal) : M unit :=
  let t := {| task_org := org; task_queue := queue_name; task_name := task; task_args := args |} in
  if push_fails t then raise PushError
  else modify (set_queue (fun q => (q ++ [t])%list)).

(** Modelled from the spec: [Flow.do_calculate_flow_stats] of
    [temba.flows.models], whose source is not available. Section 4.3: it
    derives the cached value again from the authoritative source and
    overwrites the cache; section 6: the count is held as text. *)
Definition do_calculate_flow_stats (flow : Flow.t) : M unit :=
  let! n := qs_count (real_runs_of flow) in
  modify (set_redis (insert (get_stats_cache_key flow runs_started_count) (Py.str n))).

(** ** The tasks *)

Definition check_flows_task (now : datetime) : M unit :=
  let key := "check_flows" in
  let! held := redis_get key in
  if negb (Py.truthy held) then
    redis_lock key 900
      (let runs : FlowRun.QuerySet :=
         fun r => Bool.eqb (FlowRun.is_active r) true
                  && FlowRun.lte (FlowRun.expires_on r) now in
       bulk_exit runs FlowRun.EXIT_TYPE_EXPIRED)
  else ret tt.

Definition check_flow_timeouts_task (now : datetime) : M unit :=
  let key := "check_flow_timeouts" in
  let! held := redis_get key in
  if negb (Py.truthy held) then
    redis_lock key 900
      (let runs : FlowRun.QuerySet :=
         fun r => Bool.eqb (FlowRun.is_active r) true
                  && FlowRun.lte (FlowRun.timeout_on r) now in
       let runs := FlowRun.only ["id"; "org"; "timeout_on"] runs in
       let! rows := qs_iter runs in
       for_each rows (fun run =>
         push_task (FlowRun.org_id run) HANDLER_QUEUE HANDLE_EVENT_TASK
           (<["type" := VStr TIMEOUT_EVENT]>
              (<["run" := VInt (FlowRun.id run)]>
                 (<["timeout_on" := VDatetime (FlowRun.timeout_on run)]> ∅)))))
  else ret tt.

(** The cached count as both statistics tasks read it. *)
Definition read_runs_started_cached (flow : Flow.t) : M Z :=
  let! runs_started_cached := redis_get (get_stats_cache_key flow runs_started_count) in
  match runs_started_cached with
  | None => ret 0
  | Some s => py_int s
  end.

Definition check_flow_stats_accuracy_task (flow_id : Z) : M unit :=
  let! flow := Flow_objects_get flow_id in
  let! runs_started_cached := read_runs_started_cached flow in
  let! runs_started := qs_count (real_runs_of flow) in
  if negb (runs_started =? runs_started_cached) then
    let! _ := logger_error ("Rebuilt flow stats (Org: " ++ Py.str (Flow.org_pk flow)
                  ++ ", Flow: " ++ Py.str (Flow.pk flow)
                  ++ "). Cache was " ++ Py.str runs_started_cached
                  ++ " but should be " ++ Py.str runs_started ++ ".") in
    delay "calculate_flow_stats" (Flow.pk flow)
  else ret tt.

Definition calculate_flow_stats_task (flow_id : Z) : M unit :=
  let! flow := Flow_objects_get flow_id in
  let! runs_started_cached := read_runs_started_cached flow in
  let! runs_started := qs_count (real_runs_of flow) in
  if negb (runs_started =? runs_started_cached) then
    let! flow' := Flow_objects_get flow_id in
    do_calculate_flow_stats flow'
  else ret tt.

Definition squash_flowruncounts : M unit :=
  let key := "squash_flowruncounts" in
  let! held := redis_get key in
  if negb (Py.truthy held) then
    redis_lock key 900 squash_counts
  else ret tt.

End Tasks.

(** ** Vocabulary of the specification *)

(** Nobody holds the lock [key]. *)
Definition lock_free (key : string) (w : World) : Prop :=
  redis w !! key = None.

(** Another holder has the lock [key]: its token is stored under the name.
    The tokens of [Lock.acquire] are never empty. *)
Definition lock_held (key : string) (w : World) : Prop :=
  exists token, redis w !! key = Some token /\ token <> "".

(** A live run whose expiry deadline is at or before [now]. *)
Definition expiry_due (now : datetime) (r : FlowRun.t) : Prop :=
  FlowRun.is_active r = true /\ exists d, FlowRun.expires_on r = Some d /\ d <= now.

(** A live run whose timeout deadline is at or before [now]. *)
Definition timeout_due (now : datetime) (r : FlowRun.t) : Prop :=
  FlowRun.is_active r = true /\ exists d, FlowRun.timeout_on r = Some d /\ d <= now.

#[global] Instance expiry_due_dec now r : Decision (expiry_due now r).
Proof.
  unfold expiry_due.
  destruct (FlowRun.is_active r); [|right; intros [? _]; discriminate].
  destruct (FlowRun.expires_on r) as [d|]; [|right; intros [_ (d & ? & _)]; discriminate].
  destruct (decide (d <= now)); [left; eauto|right].
  intros [_ (d' & Hd & ?)]. by injection Hd as <-.
Defined.

#[global] Instance timeout_due_dec now r : Decision (timeout_due now r).
Proof.
  unfold timeout_due.
  destruct (FlowRun.is_active r); [|right; intros [? _]; discriminate].
  destruct (FlowRun.timeout_on r) as [d|]; [|right; intros [_ (d & ? & _)]; discriminate].
  destruct (decide (d <= now)); [left; eauto|right].
  intros [_ (d' & Hd & ?)]. by injection Hd as <-.
Defined.

(** The event the specification asks for a timed-out run. *)
Definition timeout_event (r : FlowRun.t) : QueuedTask :=
  {| task_org := FlowRun.org_id r;
     task_queue := "handler";
     task_name := "handle_event";
     task_args := {[ "type" := VStr "timeout";
                     "run" := VInt (FlowRun.id r);
                     "timeout_on" := VDatetime (FlowRun.timeout_on r) ]} |}.

(** The rows of a batch that come before the first one whose publish call
    fails. *)
Fixpoint published (push_fails : QueuedTask -> bool) (rows : list FlowRun.t) : list FlowRun.t :=
  match rows with
  | [] => []
  | r :: rest =>
      if push_fails (timeout_event r) then [] else r :: published push_fails rest
  end.

(** The two sweepers, the lock each one takes and the task each one is. *)
Inductive Sweeper := ExpirySweeper | TimeoutSweeper.

Definition sweeper_lock (s : Sweeper) : string :=
  match s with
  | ExpirySweeper => "check_flows"
  | TimeoutSweeper => "check_flow_timeouts"
  end.

Definition sweep (lock_token : string) (push_fails : QueuedTask -> bool)
    (now : datetime) (s : Sweeper) : M unit :=
  match s with
  | ExpirySweeper => check_flows_task lock_token now
  | TimeoutSweeper => check_flow_timeouts_task lock_token push_fails now
  end.

(** The authoritative count of a flow: its runs whose contact is no test
    contact. *)
Definition runs_started (flow : Flow.t) (w : World) : Z :=
  Z.of_nat (length (List.filter (real_runs_of flow) (runs w))).

(** The counter rows are collapsed: no flow has two of them. *)
Definition squashed (table : list FlowRunCount.t) : Prop :=
  NoDup (List.map FlowRunCount.flow_id table).

(** ** Sample worlds *)

Module Sample.

Definition run (i : Z) (active : bool) (expires timeout : option datetime) : FlowRun.t :=
  {| FlowRun.id := i; FlowRun.org_id := 7; FlowRun.flow_id := 1;
     FlowRun.contact := {| Contact.id := 100 + i; Contact.is_test := false |};
     FlowRun.is_active := active; FlowRun.expires_on := expires;
     FlowRun.timeout_on := timeout; FlowRun.exit_type := None |}.

Definition flow1 : Flow.t := {| Flow.pk := 1; Flow.org_pk := 7 |}.

Definition increment (f : Z) : FlowRunCount.t :=
  {| FlowRunCount.flow_id := f; FlowRunCount.count := 1 |}.

(** Three live runs and one that has ended; nothing in the cache store. *)
Definition world : World :=
  {| redis := ∅;
     flows := [flow1];
     runs := [run 1 true (Some 5) (Some 10); run 2 true (Some 11) (Some 9);
              run 3 false (Some 1) None; run 4 true None (Some 11)];
     counts := [increment 1; increment 2; increment 1];
     queue := []; logged := []; delayed := [] |}.

(** The same world while another worker holds the lock [key]. *)
Definition locked (key : string) : World :=
  set_redis (insert key "0f3a") world.

(** The same world with [text] cached under [key]. *)
Definition cached (key text : string) : World :=
  set_redis (insert key text) world.

Definition cache_key (flow : Flow.t) (kind : FlowStatsCache) : string :=
  "flow:" ++ Py.str (Flow.pk flow) ++ ":runs_started_count".

(** The publish call fails for the event of run [i]. *)
Definition fails_for (i : Z) (t : QueuedTask) : bool :=
  match task_args t !! "run" with
  | Some (VInt j) => j =? i
  | _ => false
  end.

End Sample.

(** Two worlds built with the setters are equal when their fields are. *)
Ltac world_eq :=
  match goal with
  | w : World |- _ => destruct w
  end;
  unfold set_redis, set_runs, set_counts, set_queue, set_logged, set_delayed;
  simpl in *; f_equal.

(** ** Further vocabulary *)

(** The same outcome in a world changed by [f]. *)
Definition res_map {A} (f : World -> World) (r : Res A) : Res A :=
  match r with
  | Ret a w => Ret a (f w)
  | Raise e w => Raise e (f w)
  | Blocked => Blocked
  end.

(** A new row at the end of the run table. *)
Definition insert_run (r : FlowRun.t) : World -> World :=
  set_runs (fun table => (table ++ [r])%list).

(** A run the statistics of [flow] count, said without the query: a run of
    the flow whose contact is no test contact. *)
Definition counted (flow : Flow.t) (r : FlowRun.t) : Prop :=
  FlowRun.flow_id r = Flow.pk flow /\ Contact.is_test (FlowRun.contact r) = false.

(** The number of counted runs, live or ended. *)
Definition all_runs_count (flow : Flow.t) (w : World) : Z :=
  Z.of_nat (length (List.filter (fun r => bool_decide (counted flow r)) (runs w))).

(** The number of counted runs that are live, that is, whose active flag
    is set. *)
Definition live_runs_count (flow : Flow.t) (w : World) : Z :=
  Z.of_nat (length (List.filter
                      (fun r => bool_decide (counted flow r /\ FlowRun.is_active r = true))
                      (runs w))).

(** A run of a test contact in the sample flow. *)
Definition sample_test_run : FlowRun.t :=
  {| FlowRun.id := 9; FlowRun.org_id := 7; FlowRun.flow_id := 1;
     FlowRun.contact := {| Contact.id := 50; Contact.is_test := true |};
     FlowRun.is_active := true; FlowRun.expires_on := None;
     FlowRun.timeout_on := None; FlowRun.exit_type := None |}.

(** ** Regular expressions of the URL table

    The patterns of [temba/api/v2/urls.py] and the suffix pattern that
    [format_suffix_patterns] adds use literal characters, escaped
    punctuation, groups, alternation and [?]; they repeat nothing. *)

Module Re.

Inductive t :=
| Fail                  (* matches nothing *)
| Eps                   (* the empty string *)
| Chr (c : ascii)
| Seq (a b : t)
| Alt (a b : t)
| Opt (a : t).          (* [a?] *)

Fixpoint nullable (r : t) : bool :=
  match r with
  | Fail => false
  | Eps => true
  | Chr _ => false
  | Seq a b => nullable a && nullable b
  | Alt a b => nullable a || nullable b
  | Opt _ => true
  end.

(** What is left of [r] to match once [c] has been read. *)
Fixpoint deriv (c : ascii) (r : t) : t :=
  match r with
  | Fail => Fail
  | Eps => Fail
  | Chr d => if Ascii.eqb c d then Eps else Fail
  | Seq a b =>
      if nullable a then Alt (Seq (deriv c a) b) (deriv c b) else Seq (deriv c a) b
  | Alt a b => Alt (deriv c a) (deriv c b)
  | Opt a => deriv c a
  end.

(** [r] matches the whole of [s]. *)
Fixpoint matches (r : t) (s : string) : bool :=
  match s with
  | EmptyString => nullable r
  | String c rest => matches (deriv c r) rest
  end.

(** Every string [r] matches. *)
Fixpoint words (r : t) : list string :=
  match r with
  | Fail => []
  | Eps => [EmptyString]
  | Chr c => [String c EmptyString]
  | Seq a b => List.flat_map (fun x => List.map (String.append x) (words b)) (words a)
  | Alt a b => (words a ++ words b)%list
  | Opt a => EmptyString :: words a
  end.

Definition newline : ascii := ascii_of_nat 10.

(** The characters with a meaning of their own in a pattern. *)
Definition is_meta (c : ascii) : bool :=
  existsb (Ascii.eqb c)
    ["."; "^"; "$"; "*"; "+"; "?"; "{"; "}"; "["; "]"; "\"; "|"; "("; ")"]%char.

Definition is_alnum (c : ascii) : bool :=
  let n := nat_of_ascii c in
  ((Nat.leb 48 n && Nat.leb n 57) || (Nat.leb 65 n && Nat.leb n 90)
   || (Nat.leb 97 n && Nat.leb n 122))%bool.

(** The rest of [s] after the first [c]. *)
Fixpoint after_char (c : ascii) (s : string) : option string :=
  match s with
  | EmptyString => None
  | String d rest => if Ascii.eqb c d then Some rest else after_char c rest
  end.

(** The pattern grammar: an alternation of sequences of atoms, an atom
    being a literal character, an escaped punctuation character or a group,
    plain or named with [(?P<name>...)], each with an optional [?]. Anything
    else, anchors inside the pattern included, is refused. *)
Fixpoint parse_alt (fuel : nat) (s : string) : option (t * string) :=
  match fuel with
  | O => None
  | S fuel =>
      match parse_seq fuel s with
      | Some (a, String "|" rest) =>
          match parse_alt fuel rest with
          | Some (b, rest') => Some (Alt a b, rest')
          | None => None
          end
      | other => other
      end
  end

with parse_seq (fuel : nat) (s : string) : option (t * string) :=
  match fuel with
  | O => None
  | S fuel =>
      match s with
      | EmptyString => Some (Eps, s)
      | String "|" _ => Some (Eps, s)
      | String ")" _ => Some (Eps, s)
      | _ =>
          match parse_atom fuel s with
          | Some (a, String "?" rest) =>
              match parse_seq fuel rest with
              | Some (b, rest') => Some (Seq (Opt a) b, rest')
              | None => None
              end
          | Some (a, rest) =>
              match parse_seq fuel rest with
              | Some (b, rest') => Some (Seq a b, rest')
              | None => None
              end
          | None => None
          end
      end
  end

with parse_atom (fuel : nat) (s : string) : option (t * string) :=
  match fuel with
  | O => None
  | S fuel =>
      match s with
      | EmptyString => None
      | String "(" rest =>
          let inner :=
            match rest with
            | String "?" (String "P" (String "<" named)) => after_char ">" named
            | String "?" _ => None
            | _ => Some rest
            end in
          match inner with
          | Some body =>
              match parse_alt fuel body with
              | Some (a, String ")" rest') => Some (a, rest')
              | _ => None
              end
          | None => None
          end
      | String "\" (String c rest) =>
          if is_alnum c then None else Some (Chr c, rest)
      | String c rest =>
          if is_meta c then None else Some (Chr c, rest)
      end
  end.

(** The last character of [s] taken off, when it is [c]. *)
Fixpoint without_last (c : ascii) (s : string) : option string :=
  match s with
  | EmptyString => None
  | String d EmptyString => if Ascii.eqb c d then Some EmptyString else None
  | String d rest => option_map (String d) (without_last c rest)
  end.

(** A pattern of the form [^...$] as [re.search] uses it: the body has to
    match from the start of the path, and [$] stands for the end of the path
    or for a single newline that ends it. *)
Definition compile (pattern : string) : option t :=
  match pattern with
  | String "^" anchored =>
      match without_last "$" anchored with
      | Some body =>
          match parse_seq (4 * String.length body + 4) body with
          | Some (r, EmptyString) => Some (Seq r (Opt (Chr newline)))
          | _ => None
          end
      | None => None
      end
  | _ => None
  end.

End Re.

(** ** The URL table of the API, version 2 *)

Module Urls.

(** One [url(regex, view, name=...)] entry. *)
Record RegexURLPattern := url {
  regex : string;
  callback : string;       (* the view: a function, or the class [as_view] is called on *)
  name : string
}.

(** [s.rstrip(c)] for a single character [c]. *)
Fixpoint rstrip_char (c : ascii) (s : string) : string :=
  match s with
  | EmptyString => EmptyString
  | String d rest =>
      match rstrip_char c rest with
      | EmptyString => if Ascii.eqb c d then EmptyString else String d EmptyString
      | rest' => String d rest'
      end
  end.

(** ['|'.join(parts)] *)
Fixpoint join (sep : string) (parts : list string) : string :=
  match parts with
  | [] => EmptyString
  | [x] => x
  | x :: rest => x ++ sep ++ join sep rest
  end.

(** The suffix pattern [format_suffix_patterns] of the REST framework
    builds, for the keyword [format]. *)
Definition suffix_pattern (allowed : list string) : string :=
  match allowed with
  | [] => "\.(?P<format>[a-z0-9]+)/?$"
  | [only] => "\.(?P<format>" ++ only ++ ")/?$"
  | _ => "\.(?P<format>(" ++ join "|" allowed ++ "))/?$"
  end.

(** [format_suffix_patterns(urlpatterns, allowed=...)] with the suffix not
    required: every entry is kept and followed by a copy whose pattern has
    lost its final [$] and [/] and gained the suffix pattern. *)
Definition format_suffix_patterns (urlpatterns : list RegexURLPattern)
    (allowed : list string) : list RegexURLPattern :=
  List.flat_map
    (fun p =>
       [p; url (rstrip_char "/" (rstrip_char "$" (regex p)) ++ suffix_pattern allowed)
             (callback p) (name p)])
    urlpatterns.

(** The entries as they are written, before the last line of the module. *)
Definition urlpatterns_written : list RegexURLPattern :=
  [ url "^$" "api" "api.v2";
    url "^/explorer/$" "ApiExplorerView" "api.v2.explorer";
    url "^/authenticate$" "AuthenticateView" "api.v2.authenticate";
    url "^/boundaries$" "BoundariesEndpoint" "api.v2.boundaries";
    url "^/broadcasts$" "BroadcastsEndpoint" "api.v2.broadcasts";
    url "^/campaigns$" "CampaignsEndpoint" "api.v2.campaigns";
    url "^/campaign_events$" "CampaignEventsEndpoint" "api.v2.campaign_events";
    url "^/channels$" "ChannelsEndpoint" "api.v2.channels";
    url "^/channel_events$" "ChannelEventsEndpoint" "api.v2.channel_events";
    url "^/contacts$" "ContactsEndpoint" "api.v2.contacts";
    url "^/definitions$" "DefinitionsEndpoint" "api.v2.definitions";
    url "^/fields$" "FieldsEndpoint" "api.v2.fields";
    url "^/flow_starts$" "FlowStartsEndpoint" "api.v2.flow_starts";
    url "^/flows$" "FlowsEndpoint" "api.v2.flows";
    url "^/groups$" "GroupsEndpoint" "api.v2.groups";
    url "^/labels$" "LabelsEndpoint" "api.v2.labels";
    url "^/media$" "MediaEndpoint" "api.v2.media";
    url "^/messages$" "MessagesEndpoint" "api.v2.messages";
    url "^/org$" "OrgEndpoint" "api.v2.org";
    url "^/resthooks$" "ResthookEndpoint" "api.v2.resthooks";
    url "^/resthook_events$" "ResthookEventEndpoint" "api.v2.resthook_events";
    url "^/resthook_subscribers$" "ResthookSubscriberEndpoint" "api.v2.resthook_subscribers";
    url "^/runs$" "RunsEndpoint" "api.v2.runs" ].

Definition urlpatterns : list RegexURLPattern :=
  format_suffix_patterns urlpatterns_written ["json"; "api"].

(** The entry's pattern is found in [path]. *)
Definition pattern_matches (p : RegexURLPattern) (path : string) : bool :=
  match Re.compile (regex p) with
  | Some r => Re.matches r path
  | None => false
  end.

(** The URL resolver: the first entry of the table whose pattern is found
    in what is left of the request path. *)
Definition resolve (path : string) : option RegexURLPattern :=
  List.find (fun p => pattern_matches p path) urlpatterns.

(** The path an entry is written for: its pattern without the anchors. *)
Definition written_path (p : RegexURLPattern) : string :=
  match regex p with
  | String _ anchored =>
      match Re.without_last "$" anchored with
      | Some body => body
      | None => anchored
      end
  | EmptyString => EmptyString
  end.

Definition same_route (p q : RegexURLPattern) : bool :=
  String.eqb (callback p) (callback q) && String.eqb (name p) (name q).

Definition same_entry (p q : RegexURLPattern) : bool :=
  String.eqb (regex p) (regex q) && same_route p q.

(** The paths entry [p] of the written table answers to: the written path,
    and the written path less a final slash followed by [.json] or [.api]
    and possibly a slash; each also with a newline at the end. *)
Definition paths_of (p : RegexURLPattern) : list string :=
  let nl := String Re.newline EmptyString in
  let plain := written_path p in
  let stem := rstrip_char "/" plain in
  List.app [plain; plain ++ nl]
    (List.flat_map
       (fun fmt =>
          List.flat_map
            (fun slash => [stem ++ "." ++ fmt ++ slash; stem ++ "." ++ fmt ++ slash ++ nl])
            [EmptyString; "/"])
       ["json"; "api"]).

(** Everything a pattern matches, when the pattern is one the model reads. *)
Definition pattern_words (p : RegexURLPattern) : list string :=
  match Re.compile (regex p) with
  | Some r => Re.words r
  | None => []
  end.

(** The checks the proofs about the table run: entries that share a path
    are entries of one route; every path of a written entry resolves to its
    route; every path a pattern matches is a path of a written entry of the
    same route. *)
Definition share_a_path (p q : RegexURLPattern) : bool :=
  existsb (fun x => existsb (String.eqb x) (pattern_words q)) (pattern_words p).

Definition check_unambiguous : bool :=
  forallb (fun p => forallb (fun q => same_route p q || negb (share_a_path p q)) urlpatterns)
    urlpatterns.

Definition resolves_to_route (p : RegexURLPattern) (path : string) : bool :=
  match resolve path with
  | Some q => same_route q p
  | None => false
  end.

Definition check_written (p : RegexURLPattern) : bool :=
  String.eqb (regex p) ("^" ++ written_path p ++ "$")
  && match resolve (written_path p) with
     | Some q => same_entry q p
     | None => false
     end
  && forallb (resolves_to_route p) (paths_of p).

Definition check_only_written (q : RegexURLPattern) : bool :=
  match Re.compile (regex q) with
  | Some _ =>
      forallb
        (fun x =>
           existsb (fun p => same_route q p && existsb (String.eqb x) (paths_of p))
             urlpatterns_written)
        (pattern_words q)
  | None => false
  end.

End Urls.

(** ** Facts about the Python builtins *)

Lemma nospace_lstrip s : Py.nospace s = true -> Py.lstrip s = s.
Proof.
  destruct s as [|c r]; simpl; [done|].
  destruct (Py.isspace c); [discriminate|done].
Qed.

Lemma nospace_rstrip s : Py.nospace s = true -> Py.rstrip s = s.
Proof.
  induction s as [|c r IH]; simpl; [done|].
  destruct (Py.isspace c) eqn:Hc; [discriminate|].
  intros Hr. simpl in Hr. rewrite (IH Hr). by destruct r.
Qed.

Lemma nospace_strip s : Py.nospace s = true -> Py.strip s = s.
Proof.
  intros H. unfold Py.strip. by rewrite nospace_lstrip, nospace_rstrip.
Qed.

Lemma nospace_uint d : Py.nospace (NilEmpty.string_of_uint d) = true.
Proof. induction d; simpl; auto. Qed.

Lemma digits_uint d :
  d <> Decimal.Nil -> Py.digits (NilEmpty.string_of_uint d) = Some (Z.of_uint d).
Proof.
  intros Hd. unfold Py.digits.
  replace (NilEmpty.string_of_uint d) with (NilZero.string_of_uint d) by (by destruct d).
  by rewrite NilZero.usu.
Qed.

Lemma int_unsigned d :
  d <> Decimal.Nil -> Py.int (NilEmpty.string_of_uint d) = Some (Z.of_uint d).
Proof.
  intros Hd. unfold Py.int. rewrite nospace_strip by apply nospace_uint.
  rewrite <- (digits_uint d Hd).
  destruct d; try done.
Qed.

Lemma int_str n : Py.int (Py.str n) = Some n.
Proof.
  unfold Py.str. destruct n as [|p|p]; [done| |].
  - change (Z.to_int (Z.pos p)) with (Decimal.Pos (Pos.to_uint p)).
    assert (Hp : Pos.to_uint p <> Decimal.Nil) by apply Unsigned.to_uint_nonnil.
    replace (NilZero.string_of_int (Decimal.Pos (Pos.to_uint p)))
      with (NilEmpty.string_of_uint (Pos.to_uint p))
      by (simpl; by destruct (Pos.to_uint p)).
    rewrite int_unsigned by done. f_equal.
    exact (DecimalZ.of_to (Z.pos p)).
  - change (Z.to_int (Z.neg p)) with (Decimal.Neg (Pos.to_uint p)).
    assert (Hp : Pos.to_uint p <> Decimal.Nil) by apply Unsigned.to_uint_nonnil.
    replace (NilZero.string_of_int (Decimal.Neg (Pos.to_uint p)))
      with (String "-" (NilEmpty.string_of_uint (Pos.to_uint p)))
      by (simpl; by destruct (Pos.to_uint p)).
    unfold Py.int. rewrite nospace_strip by (simpl; apply nospace_uint).
    rewrite digits_uint by done. simpl. f_equal.
    exact (DecimalZ.of_to (Z.neg p)).
Qed.

(** ** The world under the lock *)

Lemma release_acquire key token w :
  lock_free key w ->
  set_redis (delete key) (set_redis (insert key token) w) = w.
Proof. unfold lock_free. intros Hfree. world_eq. by apply delete_insert_id. Qed.

Lemma release_runs_acquire key token f w :
  lock_free key w ->
  set_redis (delete key) (set_runs f (set_redis (insert key token) w)) = set_runs f w.
Proof. unfold lock_free. intros Hfree. world_eq. by apply delete_insert_id. Qed.

Lemma release_counts_acquire key token f w :
  lock_free key w ->
  set_redis (delete key) (set_counts f (set_redis (insert key token) w)) = set_counts f w.
Proof. unfold lock_free. intros Hfree. world_eq. by apply delete_insert_id. Qed.

Lemma release_queue_acquire key token f w :
  lock_free key w ->
  set_redis (delete key) (set_queue f (set_redis (insert key token) w)) = set_queue f w.
Proof. unfold lock_free. intros Hfree. world_eq. by apply delete_insert_id. Qed.

Lemma truthy_held key w :
  lock_held key w -> Py.truthy (redis w !! key) = true.
Proof. intros (token & -> & Hne). by destruct token. Qed.

Lemma truthy_free key w :
  lock_free key w -> Py.truthy (redis w !! key) = false.
Proof. unfold lock_free. by intros ->. Qed.

Lemma lock_free_not_held key w : lock_free key w -> ~ lock_held key w.
Proof. unfold lock_free. intros Hfree (token & Htok & _). congruence. Qed.

(** ** The expiry sweeper *)

Lemma lte_spec field now :
  FlowRun.lte field now = true <-> exists d, field = Some d /\ d <= now.
Proof.
  unfold FlowRun.lte. destruct field as [d|].
  - rewrite Z.leb_le. split; [eauto|]. by intros (d' & [= <-] & ?).
  - split; [discriminate|]. by intros (d' & [=] & _).
Qed.

Lemma expiry_filter_spec now r :
  (Bool.eqb (FlowRun.is_active r) true && FlowRun.lte (FlowRun.expires_on r) now = true)
  <-> expiry_due now r.
Proof.
  unfold expiry_due. rewrite andb_true_iff, lte_spec.
  by destruct (FlowRun.is_active r).
Qed.

Lemma timeout_filter_spec now r :
  (Bool.eqb (FlowRun.is_active r) true && FlowRun.lte (FlowRun.timeout_on r) now = true)
  <-> timeout_due now r.
Proof.
  unfold timeout_due. rewrite andb_true_iff, lte_spec.
  by destruct (FlowRun.is_active r).
Qed.

Lemma not_expiry_due now r :
  ~ expiry_due now r <->
  FlowRun.is_active r = false \/ FlowRun.expires_on r = None
  \/ exists d, FlowRun.expires_on r = Some d /\ now < d.
Proof.
  unfold expiry_due. split.
  - intros Hn. destruct (FlowRun.is_active r); [|by left].
    destruct (FlowRun.expires_on r) as [d|]; [|by right; left].
    right; right. exists d. split; [done|].
    destruct (decide (d <= now)); [|lia]. destruct Hn. eauto.
  - intros [Hi|[Hn|(d & Hd & Hlt)]] [Ha (d' & Hd' & Hle)]; try congruence.
    assert (d = d') by congruence. lia.
Qed.

Lemma bulk_exit_table_lookup qs et table (i : nat) :
  FlowRun.bulk_exit_table qs et table !! i
  = (fun r => if qs r then FlowRun.exited et r else r) <$> table !! i.
Proof.
  unfold FlowRun.bulk_exit_table.
  change (List.map ?f table) with (f <$> table).
  apply list_lookup_fmap.
Qed.

Lemma bulk_exit_table_length qs et table :
  length (FlowRun.bulk_exit_table qs et table) = length table.
Proof. apply List.length_map. Qed.

Lemma bulk_exit_table_none qs et table :
  (forall r, In r table -> qs r = false) ->
  FlowRun.bulk_exit_table qs et table = table.
Proof.
  unfold FlowRun.bulk_exit_table. induction table as [|r table IH]; simpl; [done|].
  intros Hno. rewrite (Hno r) by auto. f_equal. apply IH. auto.
Qed.

Lemma In_bulk_exit_table qs et table r' :
  In r' (FlowRun.bulk_exit_table qs et table) ->
  exists r, In r table /\ r' = if qs r then FlowRun.exited et r else r.
Proof.
  unfold FlowRun.bulk_exit_table. rewrite in_map_iff.
  intros (r & <- & Hin). eauto.
Qed.

(** The sweeper with its lock free: one bulk exit of the due runs. *)
Lemma check_flows_task_free token now w :
  lock_free "check_flows" w ->
  check_flows_task token now w
  = Ret tt (set_runs
              (FlowRun.bulk_exit_table
                 (fun r => Bool.eqb (FlowRun.is_active r) true
                           && FlowRun.lte (FlowRun.expires_on r) now)
                 FlowRun.EXIT_TYPE_EXPIRED) w).
Proof.
  intros Hfree. unfold check_flows_task, bind, redis_get, gets.
  rewrite (truthy_free _ _ Hfree). simpl.
  unfold redis_lock. rewrite Hfree.
  unfold bulk_exit, modify. by rewrite release_runs_acquire.
Qed.

Lemma check_flows_task_held token now w :
  lock_held "check_flows" w -> check_flows_task token now w = Ret tt w.
Proof.
  intros Hheld. unfold check_flows_task, bind, redis_get, gets.
  by rewrite (truthy_held _ _ Hheld).
Qed.

(** C1: with its lock free, the expiry sweeper returns, exits every live
    run whose expiry deadline is at or before the current time with exit
    type expired, leaves every run that is inactive, has no expiry deadline
    or has a deadline in the future as it was, and changes nothing else in
    the world. *)
Theorem check_flows_task_exits_due token now w :
  lock_free "check_flows" w ->
  exists w',
    check_flows_task token now w = Ret tt w'
    /\ w' = set_runs (fun _ => runs w') w
    /\ length (runs w') = length (runs w)
    /\ forall (i : nat) r, runs w !! i = Some r ->
         (expiry_due now r ->
            runs w' !! i = Some (FlowRun.exited FlowRun.EXIT_TYPE_EXPIRED r))
         /\ (FlowRun.is_active r = false \/ FlowRun.expires_on r = None
             \/ (exists d, FlowRun.expires_on r = Some d /\ now < d) ->
            runs w' !! i = Some r).
Proof.
  intros Hfree. eexists. split; [by apply check_flows_task_free|].
  split; [by destruct w|]. split; [apply bulk_exit_table_length|].
  intros i r Hr. simpl. rewrite bulk_exit_table_lookup, Hr. simpl. split.
  - intros Hdue. apply expiry_filter_spec in Hdue. by rewrite Hdue.
  - intros Hnot. apply not_expiry_due in Hnot.
    destruct (_ && _) eqn:Hq; [|done].
    apply expiry_filter_spec in Hq. contradiction.
Qed.

Lemma check_flows_task_exits_due_witness :
  exists w',
    check_flows_task "9c1e" 10 Sample.world = Ret tt w'
    /\ w' = set_runs (fun _ => runs w') Sample.world
    /\ length (runs w') = length (runs Sample.world)
    /\ forall (i : nat) r, runs Sample.world !! i = Some r ->
         (expiry_due 10 r ->
            runs w' !! i = Some (FlowRun.exited FlowRun.EXIT_TYPE_EXPIRED r))
         /\ (FlowRun.is_active r = false \/ FlowRun.expires_on r = None
             \/ (exists d, FlowRun.expires_on r = Some d /\ 10 < d) ->
            runs w' !! i = Some r).
Proof. apply (check_flows_task_exits_due "9c1e" 10 Sample.world). reflexivity. Defined.

(** On the sample world at time 10 only run 1 is exited: run 2 is due
    later, run 3 has ended already, run 4 has no expiry deadline. *)
Example check_flows_task_sample :
  option_map (fun w => List.map (fun r => (FlowRun.is_active r, FlowRun.exit_type r)) (runs w))
    (world_of (check_flows_task "9c1e" 10 Sample.world))
  = Some [(false, Some FlowRun.EXIT_TYPE_EXPIRED); (true, None); (false, None); (true, None)].
Proof. vm_compute. reflexivity. Qed.

(** An empty string under the lock name is no token: the guard lets the
    task through and the acquisition waits. *)
Example check_flows_task_stale :
  check_flows_task "9c1e" 10 (set_redis (insert "check_flows" "") Sample.world) = Blocked.
Proof. vm_compute. reflexivity. Qed.

Lemma check_flow_timeouts_task_held token push_fails now w :
  lock_held "check_flow_timeouts" w ->
  check_flow_timeouts_task token push_fails now w = Ret tt w.
Proof.
  intros Hheld. unfold check_flow_timeouts_task, bind, redis_get, gets.
  by rewrite (truthy_held _ _ Hheld).
Qed.

(** C3: for each of the two sweepers, when its named lock is held by another
    holder at invocation time, the invocation returns without error and
    leaves the whole world, event queue included, as it was. *)
Theorem sweep_locked_noop token push_fails now s w :
  lock_held (sweeper_lock s) w ->
  sweep token push_fails now s w = Ret tt w.
Proof.
  destruct s; simpl; intros Hheld.
  - by apply check_flows_task_held.
  - by apply check_flow_timeouts_task_held.
Qed.

Lemma sweep_locked_noop_witness :
  sweep "9c1e" (fun _ => false) 10 ExpirySweeper (Sample.locked "check_flows")
  = Ret tt (Sample.locked "check_flows")
  /\ sweep "9c1e" (fun _ => false) 10 TimeoutSweeper (Sample.locked "check_flow_timeouts")
     = Ret tt (Sample.locked "check_flow_timeouts").
Proof.
  split.
  - apply (sweep_locked_noop "9c1e" (fun _ => false) 10 ExpirySweeper
             (Sample.locked "check_flows")).
    exists "0f3a". split; [reflexivity|discriminate].
  - apply (sweep_locked_noop "9c1e" (fun _ => false) 10 TimeoutSweeper
             (Sample.locked "check_flow_timeouts")).
    exists "0f3a". split; [reflexivity|discriminate].
Defined.

(** A second sweep never selects a run the first one has exited, and selects
    no run at all unless one has come due since. *)
Lemma second_sweep_selects_nothing now1 now2 table r' :
  (forall r d, In r table -> FlowRun.is_active r = true ->
               FlowRun.expires_on r = Some d -> now1 < d -> now2 < d) ->
  In r' (FlowRun.bulk_exit_table
           (fun r => Bool.eqb (FlowRun.is_active r) true
                     && FlowRun.lte (FlowRun.expires_on r) now1)
           FlowRun.EXIT_TYPE_EXPIRED table) ->
  Bool.eqb (FlowRun.is_active r') true && FlowRun.lte (FlowRun.expires_on r') now2 = false.
Proof.
  intros Hquiet Hin. apply In_bulk_exit_table in Hin as (r & Hr & ->).
  destruct (_ && FlowRun.lte (FlowRun.expires_on r) now1) eqn:Hq1; [done|].
  apply not_true_is_false. intros Hq2.
  apply expiry_filter_spec in Hq2 as [Hact (d & Hd & Hle)].
  assert (Hn1 : ~ expiry_due now1 r).
  { intros Hdue. apply expiry_filter_spec in Hdue. congruence. }
  assert (now1 < d).
  { destruct (decide (d <= now1)); [|lia]. destruct Hn1. split; eauto. }
  specialize (Hquiet r d Hr Hact Hd). lia.
Qed.



(** Two sweeps that read the same clock: the second changes nothing. *)
Corollary check_flows_task_same_clock token now w :
  lock_free "check_flows" w \/ lock_held "check_flows" w ->
  exists w1,
    check_flows_task token now w = Ret tt w1
    /\ check_flows_task token now w1 = Ret tt w1.
Proof.
  intros [Hfree|Hheld].
  - eexists. split; [by apply check_flows_task_free|].
    rewrite check_flows_task_free by done. f_equal.
    destruct w. unfold set_runs. simpl. f_equal.
    apply bulk_exit_table_none. intros r' Hin.
    apply (second_sweep_selects_nothing now now runs0); auto.
  - exists w. split; by apply check_flows_task_held.
Qed.

(** Once time has moved on, a later sweep does exit the runs that came due
    in between; it still leaves the ones already exited alone. *)
Example check_flows_task_later_sweep :
  exists w1 w2,
    check_flows_task "9c1e" 10 Sample.world = Ret tt w1
    /\ check_flows_task "9c1e" 11 w1 = Ret tt w2
    /\ FlowRun.is_active <$> runs w1 = [false; true; false; true]
    /\ FlowRun.is_active <$> runs w2 = [false; false; false; true].
Proof. eexists _, _. repeat split; vm_compute; reflexivity. Qed.

(** ** The timeout sweeper *)

Lemma push_timeout_event push_fails run w :
  push_task push_fails (FlowRun.org_id run) HANDLER_QUEUE HANDLE_EVENT_TASK
    (<["type" := VStr TIMEOUT_EVENT]>
       (<["run" := VInt (FlowRun.id run)]>
          (<["timeout_on" := VDatetime (FlowRun.timeout_on run)]> ∅))) w
  = if push_fails (timeout_event run) then Raise PushError w
    else Ret tt (set_queue (fun q => (q ++ [timeout_event run])%list) w).
Proof.
  unfold push_task, raise, modify.
  change {| task_org := FlowRun.org_id run; task_queue := HANDLER_QUEUE;
            task_name := HANDLE_EVENT_TASK; task_args := _ |}
    with (timeout_event run).
  by destruct (push_fails (timeout_event run)).
Qed.

Lemma set_queue_nil w : set_queue (fun q => (q ++ [])%list) w = w.
Proof. world_eq. apply app_nil_r. Qed.

Lemma set_queue_cons (x : QueuedTask) xs w :
  set_queue (fun q => (q ++ xs)%list) (set_queue (fun q => (q ++ [x])%list) w)
  = set_queue (fun q => (q ++ x :: xs)%list) w.
Proof. world_eq. by rewrite <- app_assoc. Qed.

(** The loop publishes row after row and stops at the first failure. *)
Lemma for_each_push (push_fails : QueuedTask -> bool) (body : FlowRun.t -> M unit) rows :
  (forall run w,
     body run w = if push_fails (timeout_event run) then Raise PushError w
                  else Ret tt (set_queue (fun q => (q ++ [timeout_event run])%list) w)) ->
  forall w,
    for_each rows body w
    = let w' := set_queue
                  (fun q => (q ++ List.map timeout_event (published push_fails rows))%list) w in
      if forallb (fun r => negb (push_fails (timeout_event r))) rows
      then Ret tt w' else Raise PushError w'.
Proof.
  intros Hbody. induction rows as [|r rows IH]; intros w; simpl.
  - unfold ret. by rewrite set_queue_nil.
  - unfold bind. rewrite Hbody.
    destruct (push_fails (timeout_event r)); simpl.
    + by rewrite set_queue_nil.
    + rewrite IH. simpl. by rewrite set_queue_cons.
Qed.

Lemma published_all (push_fails : QueuedTask -> bool) rows :
  (forall r, In r rows -> push_fails (timeout_event r) = false) ->
  published push_fails rows = rows
  /\ forallb (fun r => negb (push_fails (timeout_event r))) rows = true.
Proof.
  induction rows as [|r rows IH]; simpl; [done|].
  intros Hok. rewrite (Hok r) by auto. simpl.
  destruct IH as [-> ->]; auto.
Qed.

Lemma published_until (push_fails : QueuedTask -> bool) before bad after :
  (forall r, In r before -> push_fails (timeout_event r) = false) ->
  push_fails (timeout_event bad) = true ->
  published push_fails (before ++ bad :: after) = before
  /\ forallb (fun r => negb (push_fails (timeout_event r))) (before ++ bad :: after) = false.
Proof.
  intros Hok Hbad. induction before as [|r before IH]; simpl.
  - by rewrite Hbad.
  - rewrite (Hok r) by (simpl; auto). simpl.
    destruct IH as [-> ->]; [|done]. intros r' Hin. apply Hok. simpl. auto.
Qed.

Lemma timeout_rows now table :
  FlowRun.rows
    (FlowRun.only ["id"; "org"; "timeout_on"]
       (fun r => Bool.eqb (FlowRun.is_active r) true
                 && FlowRun.lte (FlowRun.timeout_on r) now)) table
  = List.filter (fun r => bool_decide (timeout_due now r)) table.
Proof.
  unfold FlowRun.rows, FlowRun.only. apply List.filter_ext. intros r.
  apply eq_true_iff_eq. rewrite timeout_filter_spec.
  by rewrite bool_decide_eq_true.
Qed.

(** The sweeper with its lock free: the due rows in table order, published
    up to the first failure, the lock given back either way. *)
Lemma check_flow_timeouts_task_free token push_fails now w :
  lock_free "check_flow_timeouts" w ->
  check_flow_timeouts_task token push_fails now w
  = let rows := List.filter (fun r => bool_decide (timeout_due now r)) (runs w) in
    let w' := set_queue
                (fun q => (q ++ List.map timeout_event (published push_fails rows))%list) w in
    if forallb (fun r => negb (push_fails (timeout_event r))) rows
    then Ret tt w' else Raise PushError w'.
Proof.
  intros Hfree. unfold check_flow_timeouts_task, bind at 1, redis_get, gets.
  rewrite (truthy_free _ _ Hfree). simpl.
  unfold redis_lock. rewrite Hfree.
  unfold bind, qs_iter, gets.
  rewrite (for_each_push push_fails) by apply push_timeout_event.
  change (runs (set_redis _ w)) with (runs w).
  rewrite timeout_rows. simpl.
  destruct (forallb _ _); by rewrite release_queue_acquire.
Qed.

Lemma timeout_event_deadline r r' :
  timeout_event r = timeout_event r' -> FlowRun.timeout_on r = FlowRun.timeout_on r'.
Proof.
  intros Heq.
  assert (Hl : task_args (timeout_event r) !! "timeout_on"
               = task_args (timeout_event r') !! "timeout_on") by by rewrite Heq.
  unfold timeout_event in Hl. simpl in Hl.
  rewrite !lookup_insert_ne, !lookup_singleton_eq in Hl by done.
  congruence.
Qed.

(** C2: with its lock free and no publish call failing, the timeout sweeper
    returns after adding to the queue one event per live run whose timeout
    deadline is at or before the current time, in table order, and nothing
    else; the event of a run is addressed to the run's organization, the
    handler queue and the handle-event task type, with the payload of type
    timeout, the run's id and its deadline. A live run whose deadline is
    the current time has its event published, a run whose deadline is one
    tick later has not. *)
Theorem check_flow_timeouts_task_publishes token push_fails now w :
  lock_free "check_flow_timeouts" w ->
  (forall r, In r (runs w) -> push_fails (timeout_event r) = false) ->
  exists events,
    check_flow_timeouts_task token push_fails now w
    = Ret tt (set_queue (fun q => (q ++ events)%list) w)
    /\ events = List.map timeout_event
                  (List.filter (fun r => bool_decide (timeout_due now r)) (runs w))
    /\ (forall r, In r (runs w) -> FlowRun.is_active r = true ->
          FlowRun.timeout_on r = Some now -> In (timeout_event r) events)
    /\ (forall r, In r (runs w) -> FlowRun.timeout_on r = Some (now + 1) ->
          ~ In (timeout_event r) events).
Proof.
  intros Hfree Hok. eexists. split; [|split; [reflexivity|split]].
  - rewrite check_flow_timeouts_task_free by done. simpl.
    destruct (published_all push_fails
                (List.filter (fun r => bool_decide (timeout_due now r)) (runs w)))
      as [-> ->]; [|done].
    intros r Hin. apply filter_In in Hin as [Hin _]. by apply Hok.
  - intros r Hin Hact Hd. apply in_map, filter_In. split; [done|].
    apply bool_decide_eq_true. split; [done|]. exists now. split; [done|lia].
  - intros r Hin Hd Hev. apply in_map_iff in Hev as (r' & Heq & Hin').
    apply filter_In in Hin' as [_ Hdue].
    apply bool_decide_eq_true in Hdue as [_ (d & Hd' & Hle)].
    apply timeout_event_deadline in Heq. rewrite Hd, Hd' in Heq.
    injection Heq as ->. lia.
Qed.

Lemma check_flow_timeouts_task_publishes_witness :
  exists events,
    check_flow_timeouts_task "9c1e" (fun _ => false) 10 Sample.world
    = Ret tt (set_queue (fun q => (q ++ events)%list) Sample.world)
    /\ events = List.map timeout_event
                  (List.filter (fun r => bool_decide (timeout_due 10 r)) (runs Sample.world))
    /\ (forall r, In r (runs Sample.world) -> FlowRun.is_active r = true ->
          FlowRun.timeout_on r = Some 10 -> In (timeout_event r) events)
    /\ (forall r, In r (runs Sample.world) -> FlowRun.timeout_on r = Some (10 + 1) ->
          ~ In (timeout_event r) events).
Proof.
  apply (check_flow_timeouts_task_publishes "9c1e" (fun _ => false) 10 Sample.world).
  - reflexivity.
  - intros r _. reflexivity.
Defined.

(** On the sample world at time 10: runs 1 and 2 are due, run 4 is not. *)
Example check_flow_timeouts_task_sample :
  option_map (fun w => List.map task_args (queue w))
    (world_of (check_flow_timeouts_task "9c1e" (fun _ => false) 10 Sample.world))
  = Some [ ({[ "type" := VStr "timeout"; "run" := VInt 1; "timeout_on" := VDatetime (Some 10) ]} : gmap string PyVal);
           {[ "type" := VStr "timeout"; "run" := VInt 2; "timeout_on" := VDatetime (Some 9) ]} ].
Proof. vm_compute. reflexivity. Qed.

Lemma check_flow_timeouts_task_stale token push_fails now w :
  redis w !! "check_flow_timeouts" = Some "" ->
  check_flow_timeouts_task token push_fails now w = Blocked.
Proof.
  intros Hstale. unfold check_flow_timeouts_task, bind, redis_get, gets.
  rewrite Hstale. simpl. unfold redis_lock. by rewrite Hstale.
Qed.

Lemma lock_cases key w :
  lock_free key w \/ lock_held key w \/ redis w !! key = Some "".
Proof.
  unfold lock_free, lock_held. destruct (redis w !! key) as [[|c token]|] eqn:Hl; eauto.
Qed.

(** The claim of C5 fails on the sample world at time 10: runs 1 and 2 are
    due, the publish call fails for run 1 only, and run 2 gets no event. *)
Lemma timeout_batch_aborts_on_fault :
  ~ (forall r, In r (runs Sample.world) -> timeout_due 10 r ->
       Sample.fails_for 1 (timeout_event r) = false ->
       exists w',
         world_of (check_flow_timeouts_task "9c1e" (Sample.fails_for 1) 10 Sample.world)
         = Some w'
         /\ In (timeout_event r) (queue w')).
Proof.
  intros Hclaim.
  destruct (Hclaim (Sample.run 2 true (Some 11) (Some 9))) as (w' & Hw' & Hin).
  - simpl. auto.
  - split; [done|]. exists 9. split; [done|lia].
  - reflexivity.
  - vm_compute in Hw'. injection Hw' as <-. exact Hin.
Qed.

(** C5, as the code has it: when the publish call fails for a due run, the
    events of the due runs before it in table order have been published,
    the failure leaves the task as an exception once the lock is given back,
    and neither that run nor the due runs after it get an event in this
    invocation; the run table is as it was. *)
Theorem check_flow_timeouts_task_stops_at_fault token push_fails now w before bad after :
  lock_free "check_flow_timeouts" w ->
  List.filter (fun r => bool_decide (timeout_due now r)) (runs w) = (before ++ bad :: after)%list ->
  (forall r, In r before -> push_fails (timeout_event r) = false) ->
  push_fails (timeout_event bad) = true ->
  check_flow_timeouts_task token push_fails now w
  = Raise PushError (set_queue (fun q => (q ++ List.map timeout_event before)%list) w).
Proof.
  intros Hfree Hrows Hok Hbad.
  rewrite check_flow_timeouts_task_free by done. simpl. rewrite Hrows.
  by destruct (published_until push_fails before bad after Hok Hbad) as [-> ->].
Qed.

Lemma check_flow_timeouts_task_stops_at_fault_witness :
  check_flow_timeouts_task "9c1e" (Sample.fails_for 2) 10 Sample.world
  = Raise PushError
      (set_queue
         (fun q => (q ++ List.map timeout_event [Sample.run 1 true (Some 5) (Some 10)])%list)
         Sample.world).
Proof.
  apply (check_flow_timeouts_task_stops_at_fault "9c1e" (Sample.fails_for 2) 10 Sample.world
           [Sample.run 1 true (Some 5) (Some 10)]
           (Sample.run 2 true (Some 11) (Some 9)) []).
  - reflexivity.
  - reflexivity.
  - intros r [<-|[]]. reflexivity.
  - reflexivity.
Defined.

(** C9: however an invocation of the timeout sweeper ends, by returning or
    by an exception, the run table is what it was, so every field of every
    run is unchanged, and the world differs from the one before at most by
    events added at the end of the event dispatch queue. *)
Theorem check_flow_timeouts_task_only_publishes token push_fails now w w' :
  world_of (check_flow_timeouts_task token push_fails now w) = Some w' ->
  runs w' = runs w
  /\ exists events, w' = set_queue (fun q => (q ++ events)%list) w.
Proof.
  destruct (lock_cases "check_flow_timeouts" w) as [Hfree|[Hheld|Hstale]].
  - rewrite check_flow_timeouts_task_free by done. simpl.
    destruct (forallb _ _); simpl; intros [= <-]; (split; [reflexivity|eauto]).
  - rewrite check_flow_timeouts_task_held by done. simpl. intros [= <-].
    split; [done|]. exists []. by rewrite set_queue_nil.
  - rewrite check_flow_timeouts_task_stale by done. discriminate.
Qed.

Lemma check_flow_timeouts_task_only_publishes_witness :
  runs (set_queue (fun q => (q ++ List.map timeout_event [Sample.run 1 true (Some 5) (Some 10)])%list)
          Sample.world)
  = runs Sample.world
  /\ exists events,
       set_queue (fun q => (q ++ List.map timeout_event [Sample.run 1 true (Some 5) (Some 10)])%list)
         Sample.world
       = set_queue (fun q => (q ++ events)%list) Sample.world.
Proof.
  apply (check_flow_timeouts_task_only_publishes "9c1e" (Sample.fails_for 2) 10 Sample.world).
  vm_compute. reflexivity.
Defined.

(** ** Squashing the run counters *)

Lemma In_flow_ids f table :
  In f (FlowRunCount.flow_ids table) <-> exists c, In c table /\ FlowRunCount.flow_id c = f.
Proof.
  induction table as [|c table IH]; simpl.
  - split; [done|]. by intros (c & [] & _).
  - rewrite filter_In, IH, negb_true_iff, Z.eqb_neq. split.
    + intros [<-|[(c' & Hin & <-) _]]; eauto.
    + intros (c' & [<-|Hin] & <-); [by left|].
      destruct (decide (FlowRunCount.flow_id c = FlowRunCount.flow_id c')); [by left|].
      right. split; [eauto|congruence].
Qed.

Lemma NoDup_flow_ids table : NoDup (FlowRunCount.flow_ids table).
Proof.
  induction table as [|c table IH]; simpl.
  - constructor.
  - apply NoDup_cons_2.
    + rewrite list_elem_of_In, filter_In, negb_true_iff, Z.eqb_neq. by intros [_ ?].
    + apply NoDup_ListNoDup, List.NoDup_filter. by apply NoDup_ListNoDup.
Qed.

Lemma total_no_rows f table :
  (forall c, In c table -> FlowRunCount.flow_id c <> f) -> FlowRunCount.total f table = 0.
Proof.
  unfold FlowRunCount.total. induction table as [|c table IH]; simpl; [done|].
  intros Hno. destruct (Z.eqb_spec (FlowRunCount.flow_id c) f) as [Heq|_].
  - destruct (Hno c); auto.
  - apply IH. auto.
Qed.

(** The aggregate rows of the flows [ids], read back for one flow. *)
Lemma total_aggregates f table (ids : list Z) :
  NoDup ids ->
  FlowRunCount.total f
    (List.map (fun g => {| FlowRunCount.flow_id := g;
                           FlowRunCount.count := FlowRunCount.total g table |}) ids)
  = if bool_decide (f ∈ ids) then FlowRunCount.total f table else 0.
Proof.
  unfold FlowRunCount.total at 1.
  induction 1 as [|g ids Hg Hnd IH]; simpl; [done|].
  destruct (Z.eqb_spec g f) as [->|Hne]; simpl.
  - rewrite IH. rewrite (bool_decide_eq_true_2 (f ∈ f :: ids)) by apply list_elem_of_here.
    rewrite bool_decide_eq_false_2 by done. lia.
  - rewrite IH. rewrite (bool_decide_ext (f ∈ ids) (f ∈ g :: ids)); [done|].
    rewrite elem_of_cons. split; [by right|]. by intros [->|?].
Qed.

Lemma squash_counts_table_total f table :
  FlowRunCount.total f (FlowRunCount.squash_counts_table table) = FlowRunCount.total f table.
Proof.
  unfold FlowRunCount.squash_counts_table.
  rewrite total_aggregates by apply NoDup_flow_ids.
  case_bool_decide as Hin; [done|]. symmetry. apply total_no_rows.
  intros c Hc Heq. apply Hin, list_elem_of_In, In_flow_ids. eauto.
Qed.

Lemma squash_counts_table_squashed table :
  squashed (FlowRunCount.squash_counts_table table).
Proof.
  unfold squashed, FlowRunCount.squash_counts_table.
  rewrite List.map_map. simpl. rewrite List.map_id. apply NoDup_flow_ids.
Qed.

Lemma squash_flowruncounts_free token w :
  lock_free "squash_flowruncounts" w ->
  squash_flowruncounts token w = Ret tt (set_counts FlowRunCount.squash_counts_table w).
Proof.
  intros Hfree. unfold squash_flowruncounts, bind, redis_get, gets.
  rewrite (truthy_free _ _ Hfree). simpl.
  unfold redis_lock. rewrite Hfree.
  unfold squash_counts, modify. by rewrite release_counts_acquire.
Qed.

Lemma squash_flowruncounts_held token w :
  lock_held "squash_flowruncounts" w -> squash_flowruncounts token w = Ret tt w.
Proof.
  intros Hheld. unfold squash_flowruncounts, bind, redis_get, gets.
  by rewrite (truthy_held _ _ Hheld).
Qed.

(** The claim of C4 fails on the sample world while another worker holds
    the lock: the task returns and the counter rows are not collapsed. *)
Lemma squash_flowruncounts_skips_when_locked :
  ~ (exists w',
       squash_flowruncounts "9c1e" (Sample.locked "squash_flowruncounts") = Ret tt w'
       /\ counts w'
          = FlowRunCount.squash_counts_table (counts (Sample.locked "squash_flowruncounts"))).
Proof.
  intros (w' & Hrun & Hcounts).
  rewrite squash_flowruncounts_held in Hrun.
  - injection Hrun as <-. vm_compute in Hcounts. discriminate.
  - exists "0f3a". split; [reflexivity|discriminate].
Qed.

(** C4, as the code has it: the squash task is guarded by the lock
    [squash_flowruncounts]. With the lock free it returns after collapsing
    the counter rows into one aggregate row per flow, every flow keeping its
    total, and changes nothing else; with the lock held by another holder it
    returns and changes nothing. *)
Theorem squash_flowruncounts_guarded token w :
  (lock_free "squash_flowruncounts" w ->
   exists w',
     squash_flowruncounts token w = Ret tt w'
     /\ w' = set_counts (fun _ => counts w') w
     /\ counts w' = FlowRunCount.squash_counts_table (counts w)
     /\ squashed (counts w')
     /\ forall f, FlowRunCount.total f (counts w') = FlowRunCount.total f (counts w))
  /\ (lock_held "squash_flowruncounts" w -> squash_flowruncounts token w = Ret tt w).
Proof.
  split.
  - intros Hfree. eexists. split; [by apply squash_flowruncounts_free|].
    split; [by destruct w|]. split; [done|]. simpl.
    split; [apply squash_counts_table_squashed|]. intros f. apply squash_counts_table_total.
  - apply squash_flowruncounts_held.
Qed.

Lemma squash_flowruncounts_guarded_witness :
  (exists w',
     squash_flowruncounts "9c1e" Sample.world = Ret tt w'
     /\ w' = set_counts (fun _ => counts w') Sample.world
     /\ counts w' = FlowRunCount.squash_counts_table (counts Sample.world)
     /\ squashed (counts w')
     /\ forall f, FlowRunCount.total f (counts w') = FlowRunCount.total f (counts Sample.world))
  /\ squash_flowruncounts "9c1e" (Sample.locked "squash_flowruncounts")
     = Ret tt (Sample.locked "squash_flowruncounts").
Proof.
  split.
  - apply (squash_flowruncounts_guarded "9c1e" Sample.world). reflexivity.
  - apply (squash_flowruncounts_guarded "9c1e" (Sample.locked "squash_flowruncounts")).
    exists "0f3a". split; [reflexivity|discriminate].
Defined.

(** The sample counters [1, 2, 1] collapse to two rows for flow 1 and one
    for flow 2. *)
Example squash_counts_sample :
  List.map (fun c => (FlowRunCount.flow_id c, FlowRunCount.count c))
    (FlowRunCount.squash_counts_table (counts Sample.world))
  = [(1, 2); (2, 1)].
Proof. reflexivity. Qed.

(** ** The flow statistics tasks *)

Section Stats.

Variable get_stats_cache_key : Flow.t -> FlowStatsCache -> string.

Lemma Flow_objects_get_world pk w flow w' :
  Flow_objects_get pk w = Ret flow w' -> w' = w.
Proof.
  unfold Flow_objects_get.
  destruct (List.filter _ _) as [|f [|f' rest]]; congruence.
Qed.

Lemma Flow_objects_get_never_blocks pk w : Flow_objects_get pk w <> Blocked.
Proof.
  unfold Flow_objects_get.
  destruct (List.filter _ _) as [|f [|f' rest]]; discriminate.
Qed.

Lemma Flow_objects_get_raise pk w e w' :
  Flow_objects_get pk w = Raise e w' -> w' = w.
Proof.
  unfold Flow_objects_get.
  destruct (List.filter _ _) as [|f [|f' rest]]; congruence.
Qed.

(** What the tasks read as the cached count. *)
Lemma read_runs_started_cached_spec flow w :
  read_runs_started_cached get_stats_cache_key flow w
  = match redis w !! get_stats_cache_key flow runs_started_count with
    | None => Ret 0 w
    | Some s => match Py.int s with
                | Some n => Ret n w
                | None => Raise ValueError w
                end
    end.
Proof.
  unfold read_runs_started_cached, bind, redis_get, gets, py_int.
  destruct (redis w !! _) as [s|]; [|done]. by destruct (Py.int s).
Qed.

Lemma read_runs_started_cached_absent flow w :
  redis w !! get_stats_cache_key flow runs_started_count = None ->
  read_runs_started_cached get_stats_cache_key flow w = Ret 0 w.
Proof. intros Habsent. by rewrite read_runs_started_cached_spec, Habsent. Qed.

Lemma read_runs_started_cached_inv flow w cached w' :
  read_runs_started_cached get_stats_cache_key flow w = Ret cached w' ->
  w' = w
  /\ (redis w !! get_stats_cache_key flow runs_started_count = None /\ cached = 0
      \/ exists s, redis w !! get_stats_cache_key flow runs_started_count = Some s /\ Py.int s = Some cached).
Proof.
  rewrite read_runs_started_cached_spec.
  destruct (redis w !! _) as [s|]; [|intros [= <- <-]; auto].
  destruct (Py.int s) as [n|] eqn:Hs; [|discriminate].
  intros [= <- <-]. eauto.
Qed.

(** The accuracy check once the flow and the cached count are read. *)
Lemma check_flow_stats_accuracy_task_run flow_id w flow cached :
  Flow_objects_get flow_id w = Ret flow w ->
  read_runs_started_cached get_stats_cache_key flow w = Ret cached w ->
  check_flow_stats_accuracy_task get_stats_cache_key flow_id w
  = if runs_started flow w =? cached then Ret tt w
    else Ret tt
           (set_delayed
              (fun l => (l ++ [{| delayed_task := "calculate_flow_stats";
                                  delayed_arg := Flow.pk flow |}])%list)
              (set_logged
                 (fun l => (l ++ [("Rebuilt flow stats (Org: " ++ Py.str (Flow.org_pk flow)
                                   ++ ", Flow: " ++ Py.str (Flow.pk flow)
                                   ++ "). Cache was " ++ Py.str cached
                                   ++ " but should be "
                                   ++ Py.str (runs_started flow w) ++ ".")%string])%list) w)).
Proof.
  intros Hflow Hcached. unfold check_flow_stats_accuracy_task.
  unfold bind at 1. rewrite Hflow. unfold bind at 1. rewrite Hcached.
  unfold bind at 1, qs_count, gets.
  change (Z.of_nat (length (FlowRun.rows (real_runs_of flow) (runs w))))
    with (runs_started flow w).
  by destruct (runs_started flow w =? cached).
Qed.

(** The recompute task once the flow and the cached count are read. *)
Lemma calculate_flow_stats_task_run flow_id w flow cached :
  Flow_objects_get flow_id w = Ret flow w ->
  read_runs_started_cached get_stats_cache_key flow w = Ret cached w ->
  calculate_flow_stats_task get_stats_cache_key flow_id w
  = if runs_started flow w =? cached then Ret tt w
    else Ret tt (set_redis (insert (get_stats_cache_key flow runs_started_count) (Py.str (runs_started flow w))) w).
Proof.
  intros Hflow Hcached. unfold calculate_flow_stats_task.
  unfold bind at 1. rewrite Hflow. unfold bind at 1. rewrite Hcached.
  unfold bind at 1, qs_count, gets.
  change (Z.of_nat (length (FlowRun.rows (real_runs_of flow) (runs w))))
    with (runs_started flow w).
  destruct (runs_started flow w =? cached); [done|]. simpl.
  unfold bind at 1. rewrite Hflow.
  unfold do_calculate_flow_stats, bind, qs_count, gets, modify. done.
Qed.

(** Overwriting a wrong cached count changes the cache store. *)
Lemma recompute_changes_world flow w cached :
  read_runs_started_cached get_stats_cache_key flow w = Ret cached w ->
  runs_started flow w <> cached ->
  set_redis (insert (get_stats_cache_key flow runs_started_count) (Py.str (runs_started flow w))) w <> w.
Proof.
  intros Hcached Hne Heq.
  assert (Hl : redis w !! get_stats_cache_key flow runs_started_count = Some (Py.str (runs_started flow w))).
  { rewrite <- Heq at 1. simpl. apply lookup_insert_eq. }
  apply read_runs_started_cached_inv in Hcached as [_ [[Hnone _]|(s & Hs & Hint)]].
  - congruence.
  - rewrite Hl in Hs. injection Hs as <-. rewrite int_str in Hint. congruence.
Qed.

(** The accuracy check never waits and never touches anything but the log
    and the list of delayed tasks. *)
Lemma check_flow_stats_accuracy_task_frame flow_id w :
  exists w',
    world_of (check_flow_stats_accuracy_task get_stats_cache_key flow_id w) = Some w'
    /\ redis w' = redis w /\ flows w' = flows w /\ runs w' = runs w
    /\ counts w' = counts w /\ queue w' = queue w.
Proof.
  unfold check_flow_stats_accuracy_task. unfold bind at 1.
  destruct (Flow_objects_get flow_id w) as [flow w1|e w1|] eqn:Hflow.
  - apply Flow_objects_get_world in Hflow as ->.
    unfold bind at 1. rewrite read_runs_started_cached_spec.
    destruct (redis w !! _) as [s|]; [destruct (Py.int s)|];
      try (unfold bind, qs_count, gets; destruct (negb _));
      simpl; eexists; (split; [reflexivity|]); simpl; auto.
  - apply Flow_objects_get_raise in Hflow as ->. simpl. eauto 10.
  - by apply Flow_objects_get_never_blocks in Hflow.
Qed.

End Stats.

Lemma counted_spec flow r : real_runs_of flow r = true <-> counted flow r.
Proof.
  unfold real_runs_of, counted.
  rewrite andb_true_iff, Z.eqb_eq, negb_true_iff. done.
Qed.

(** The query of the tasks counts the counted runs, live or ended. *)
Lemma runs_started_all flow w : runs_started flow w = all_runs_count flow w.
Proof.
  unfold runs_started, all_runs_count. do 2 f_equal.
  apply List.filter_ext. intros r. apply eq_true_iff_eq.
  by rewrite counted_spec, bool_decide_eq_true.
Qed.

(** C6 as it is written fails: the count the task compares is not the
    number of live runs. The sample flow has three live runs and one that
    has ended, none of a test contact; with "3" cached the live count
    equals the cached value, and the task still overwrites the entry (with
    "4"). *)
Lemma calculate_flow_stats_task_counts_ended_runs :
  ~ (exists w',
       calculate_flow_stats_task Sample.cache_key 1
         (Sample.cached "flow:1:runs_started_count" "3") = Ret tt w'
       /\ (w' <> Sample.cached "flow:1:runs_started_count" "3"
           <-> live_runs_count Sample.flow1 (Sample.cached "flow:1:runs_started_count" "3")
               <> 3)).
Proof.
  intros (w' & Hrun & Hiff).
  assert (Hchanged : w' <> Sample.cached "flow:1:runs_started_count" "3").
  { intros ->.
    apply (f_equal (fun r => option_map (fun w => redis w !! "flow:1:runs_started_count")
                               (world_of r))) in Hrun.
    vm_compute in Hrun. discriminate. }
  apply Hiff in Hchanged. apply Hchanged. vm_compute. reflexivity.
Qed.

(** C6, as the code has it: the recompute task reads the flow's
    authoritative count and the cached count itself, at the time it runs,
    and the authoritative count is the number of the flow's runs whose
    contact is no test contact, live or ended. With both readable the task
    returns; if the two differ it overwrites the cached entry with the
    authoritative count and changes nothing else; if they are equal it
    leaves the world as it was. So the world changes exactly when the
    mismatch holds at that check. *)
Theorem calculate_flow_stats_task_rechecks get_stats_cache_key flow_id w flow cached :
  Flow_objects_get flow_id w = Ret flow w ->
  read_runs_started_cached get_stats_cache_key flow w = Ret cached w ->
  exists w',
    calculate_flow_stats_task get_stats_cache_key flow_id w = Ret tt w'
    /\ (all_runs_count flow w <> cached ->
        w' = set_redis (insert (get_stats_cache_key flow runs_started_count)
                               (Py.str (all_runs_count flow w))) w
        /\ read_runs_started_cached get_stats_cache_key flow w'
           = Ret (all_runs_count flow w') w')
    /\ (all_runs_count flow w = cached -> w' = w)
    /\ (w' <> w <-> all_runs_count flow w <> cached).
Proof.
  intros Hflow Hcached.
  rewrite (calculate_flow_stats_task_run _ _ _ _ _ Hflow Hcached).
  rewrite <- (runs_started_all flow w).
  destruct (Z.eqb_spec (runs_started flow w) cached) as [Heq|Hne].
  - exists w. repeat split; done.
  - eexists. split; [reflexivity|]. split; [|split; [done|]].
    + intros _. split; [done|].
      rewrite <- runs_started_all, read_runs_started_cached_spec. simpl.
      by rewrite lookup_insert_eq, int_str.
    + split; [done|]. intros _. by apply (recompute_changes_world _ _ _ cached).
Qed.

Lemma calculate_flow_stats_task_rechecks_witness :
  exists w',
    calculate_flow_stats_task Sample.cache_key 1
      (Sample.cached "flow:1:runs_started_count" "3") = Ret tt w'
    /\ (all_runs_count Sample.flow1 (Sample.cached "flow:1:runs_started_count" "3") <> 3 ->
        w' = set_redis (insert (Sample.cache_key Sample.flow1 runs_started_count)
                          (Py.str (all_runs_count Sample.flow1
                                     (Sample.cached "flow:1:runs_started_count" "3"))))
               (Sample.cached "flow:1:runs_started_count" "3")
        /\ read_runs_started_cached Sample.cache_key Sample.flow1 w'
           = Ret (all_runs_count Sample.flow1 w') w')
    /\ (all_runs_count Sample.flow1 (Sample.cached "flow:1:runs_started_count" "3") = 3 ->
        w' = Sample.cached "flow:1:runs_started_count" "3")
    /\ (w' <> Sample.cached "flow:1:runs_started_count" "3"
        <-> all_runs_count Sample.flow1 (Sample.cached "flow:1:runs_started_count" "3") <> 3).
Proof.
  apply (calculate_flow_stats_task_rechecks Sample.cache_key 1
           (Sample.cached "flow:1:runs_started_count" "3") Sample.flow1 3).
  - reflexivity.
  - reflexivity.
Defined.

(** The sample flow has four runs; a cached "3" is overwritten with "4", a
    cached "4" is left alone. *)
Example calculate_flow_stats_task_sample :
  option_map (fun w => redis w !! "flow:1:runs_started_count")
    (world_of (calculate_flow_stats_task Sample.cache_key 1
                 (Sample.cached "flow:1:runs_started_count" "3")))
  = Some (Some "4")
  /\ calculate_flow_stats_task Sample.cache_key 1
       (Sample.cached "flow:1:runs_started_count" " 4 ")
     = Ret tt (Sample.cached "flow:1:runs_started_count" " 4 ").
Proof. split; vm_compute; reflexivity. Qed.

(** C7: the accuracy check never writes the cache: however it ends, the
    cache store is what it was, as are the flows, the runs, the counters
    and the event queue. With the flow and the cached count readable, a
    mismatch with the authoritative count (the flow's runs whose contact is
    no test contact) adds one line to the log and sends the recompute task
    for that flow; equal counts leave the world as it was. *)
Theorem check_flow_stats_accuracy_task_no_write get_stats_cache_key flow_id w :
  (exists w',
     world_of (check_flow_stats_accuracy_task get_stats_cache_key flow_id w) = Some w'
     /\ redis w' = redis w /\ flows w' = flows w /\ runs w' = runs w
     /\ counts w' = counts w /\ queue w' = queue w)
  /\ forall flow cached,
       Flow_objects_get flow_id w = Ret flow w ->
       read_runs_started_cached get_stats_cache_key flow w = Ret cached w ->
       (runs_started flow w <> cached ->
        exists line,
          check_flow_stats_accuracy_task get_stats_cache_key flow_id w
          = Ret tt
              (set_delayed
                 (fun l => (l ++ [{| delayed_task := "calculate_flow_stats";
                                     delayed_arg := Flow.pk flow |}])%list)
                 (set_logged (fun l => (l ++ [line])%list) w)))
       /\ (runs_started flow w = cached ->
           check_flow_stats_accuracy_task get_stats_cache_key flow_id w = Ret tt w).
Proof.
  split; [apply check_flow_stats_accuracy_task_frame|].
  intros flow cached Hflow Hcached.
  rewrite (check_flow_stats_accuracy_task_run _ _ _ _ _ Hflow Hcached).
  destruct (Z.eqb_spec (runs_started flow w) cached) as [Heq|Hne]; split; try done.
  intros _. eexists. reflexivity.
Qed.

Lemma check_flow_stats_accuracy_task_no_write_witness :
  exists line,
    check_flow_stats_accuracy_task Sample.cache_key 1
      (Sample.cached "flow:1:runs_started_count" "3")
    = Ret tt
        (set_delayed
           (fun l => (l ++ [{| delayed_task := "calculate_flow_stats";
                               delayed_arg := Flow.pk Sample.flow1 |}])%list)
           (set_logged (fun l => (l ++ [line])%list)
              (Sample.cached "flow:1:runs_started_count" "3"))).
Proof.
  apply (proj2 (check_flow_stats_accuracy_task_no_write Sample.cache_key 1
                  (Sample.cached "flow:1:runs_started_count" "3"))
           Sample.flow1 3).
  - reflexivity.
  - reflexivity.
  - vm_compute. discriminate.
Defined.

(** The line the sample mismatch logs, and the world it leaves. *)
Example check_flow_stats_accuracy_task_sample :
  option_map (fun w => (logged w, delayed w, redis w !! "flow:1:runs_started_count"))
    (world_of (check_flow_stats_accuracy_task Sample.cache_key 1
                 (Sample.cached "flow:1:runs_started_count" "3")))
  = Some (["Rebuilt flow stats (Org: 7, Flow: 1). Cache was 3 but should be 4."],
          [{| delayed_task := "calculate_flow_stats"; delayed_arg := 1 |}],
          Some "3").
Proof. vm_compute. reflexivity. Qed.

(** C10: with no entry under the flow's runs-started key, both tasks read a
    cached count of zero without raising; so for a flow with a positive
    authoritative count the accuracy check returns after logging the
    mismatch and sending the recompute task, and the recompute task returns
    after writing the authoritative count to the cache. *)
Theorem absent_cache_reads_zero get_stats_cache_key flow_id w flow :
  Flow_objects_get flow_id w = Ret flow w ->
  redis w !! get_stats_cache_key flow runs_started_count = None ->
  read_runs_started_cached get_stats_cache_key flow w = Ret 0 w
  /\ (0 < runs_started flow w ->
      (exists line,
         check_flow_stats_accuracy_task get_stats_cache_key flow_id w
         = Ret tt
             (set_delayed
                (fun l => (l ++ [{| delayed_task := "calculate_flow_stats";
                                    delayed_arg := Flow.pk flow |}])%list)
                (set_logged (fun l => (l ++ [line])%list) w)))
      /\ calculate_flow_stats_task get_stats_cache_key flow_id w
         = Ret tt (set_redis (insert (get_stats_cache_key flow runs_started_count)
                                (Py.str (runs_started flow w))) w)).
Proof.
  intros Hflow Habsent.
  pose proof (read_runs_started_cached_absent get_stats_cache_key flow w Habsent) as Hzero.
  split; [done|]. intros Hpos.
  rewrite (check_flow_stats_accuracy_task_run _ _ _ _ _ Hflow Hzero).
  rewrite (calculate_flow_stats_task_run _ _ _ _ _ Hflow Hzero).
  destruct (Z.eqb_spec (runs_started flow w) 0) as [Heq|Hne]; [lia|].
  split; [|done]. eexists. reflexivity.
Qed.

Lemma absent_cache_reads_zero_witness :
  read_runs_started_cached Sample.cache_key Sample.flow1 Sample.world = Ret 0 Sample.world
  /\ (0 < runs_started Sample.flow1 Sample.world ->
      (exists line,
         check_flow_stats_accuracy_task Sample.cache_key 1 Sample.world
         = Ret tt
             (set_delayed
                (fun l => (l ++ [{| delayed_task := "calculate_flow_stats";
                                    delayed_arg := Flow.pk Sample.flow1 |}])%list)
                (set_logged (fun l => (l ++ [line])%list) Sample.world)))
      /\ calculate_flow_stats_task Sample.cache_key 1 Sample.world
         = Ret tt (set_redis (insert (Sample.cache_key Sample.flow1 runs_started_count)
                                (Py.str (runs_started Sample.flow1 Sample.world)))
                     Sample.world)).
Proof.
  apply (absent_cache_reads_zero Sample.cache_key 1 Sample.world Sample.flow1).
  - reflexivity.
  - reflexivity.
Defined.

(** ** More on the two sweepers *)

Lemma expiry_due_earlier now' now r :
  now' <= now -> expiry_due now' r -> expiry_due now r.
Proof.
  intros Hle [Hact (d & Hd & Hdle)]. split; [done|]. exists d. split; [done|lia].
Qed.

Lemma timeout_due_earlier now' now r :
  now' <= now -> timeout_due now' r -> timeout_due now r.
Proof.
  intros Hle [Hact (d & Hd & Hdle)]. split; [done|]. exists d. split; [done|lia].
Qed.

(** X1: After an expiry sweep that got the lock no run of the table is live and
    past its expiry deadline, at the time of the sweep or any time before. *)
Theorem check_flows_task_leaves_none_due token now w :
  lock_free "check_flows" w ->
  exists w',
    check_flows_task token now w = Ret tt w'
    /\ forall r now', In r (runs w') -> now' <= now -> ~ expiry_due now' r.
Proof.
  intros Hfree. eexists. split; [by apply check_flows_task_free|].
  intros r' now' Hin Hle Hdue. simpl in Hin.
  apply In_bulk_exit_table in Hin as (r & _ & ->).
  apply (expiry_due_earlier now' now) in Hdue; [|done].
  destruct (_ && _) eqn:Hq.
  - destruct Hdue as [Hact _]. discriminate.
  - apply expiry_filter_spec in Hdue. congruence.
Qed.

Lemma check_flows_task_leaves_none_due_witness :
  exists w',
    check_flows_task "9c1e" 10 Sample.world = Ret tt w'
    /\ forall r now', In r (runs w') -> now' <= 10 -> ~ expiry_due now' r.
Proof.
  apply (check_flows_task_leaves_none_due "9c1e" 10 Sample.world). reflexivity.
Defined.

(** Exiting the runs due at [now1] and then those due at [now2] is exiting
    those due at [now2], when [now1] is the earlier time. *)
Lemma bulk_exit_table_absorb now1 now2 table :
  now1 <= now2 ->
  FlowRun.bulk_exit_table
    (fun r => Bool.eqb (FlowRun.is_active r) true && FlowRun.lte (FlowRun.expires_on r) now2)
    FlowRun.EXIT_TYPE_EXPIRED
    (FlowRun.bulk_exit_table
       (fun r => Bool.eqb (FlowRun.is_active r) true && FlowRun.lte (FlowRun.expires_on r) now1)
       FlowRun.EXIT_TYPE_EXPIRED table)
  = FlowRun.bulk_exit_table
      (fun r => Bool.eqb (FlowRun.is_active r) true && FlowRun.lte (FlowRun.expires_on r) now2)
      FlowRun.EXIT_TYPE_EXPIRED table.
Proof.
  intros Hle. unfold FlowRun.bulk_exit_table. rewrite List.map_map.
  apply List.map_ext. intros r.
  destruct (_ && FlowRun.lte (FlowRun.expires_on r) now1) eqn:Hq1; [|done].
  apply expiry_filter_spec, (expiry_due_earlier now1 now2) in Hq1; [|done].
  apply expiry_filter_spec in Hq1. by rewrite Hq1.
Qed.

(** X2: A sweep that got the lock, followed by a sweep at the same or a later
    time, leaves the world a single sweep at the later time leaves: a sweep
    catches up on whatever the sweeps before it would have done, and doing
    it after them repeats nothing. *)
Theorem check_flows_task_catches_up token now1 now2 w :
  lock_free "check_flows" w ->
  now1 <= now2 ->
  exists w1,
    check_flows_task token now1 w = Ret tt w1
    /\ check_flows_task token now2 w1 = check_flows_task token now2 w.
Proof.
  intros Hfree Hle. eexists. split; [by apply check_flows_task_free|].
  rewrite !check_flows_task_free by done. f_equal.
  destruct w. unfold set_runs. simpl. f_equal.
  by apply bulk_exit_table_absorb.
Qed.

Lemma check_flows_task_catches_up_witness :
  exists w1,
    check_flows_task "9c1e" 10 Sample.world = Ret tt w1
    /\ check_flows_task "9c1e" 11 w1 = check_flows_task "9c1e" 11 Sample.world.
Proof.
  apply (check_flows_task_catches_up "9c1e" 10 11 Sample.world); [reflexivity|lia].
Defined.

Lemma timeout_rows_grow now1 now2 table :
  now1 <= now2 ->
  sublist (List.map timeout_event
             (List.filter (fun r => bool_decide (timeout_due now1 r)) table))
          (List.map timeout_event
             (List.filter (fun r => bool_decide (timeout_due now2 r)) table)).
Proof.
  intros Hle. induction table as [|r table IH]; simpl; [constructor|].
  destruct (bool_decide (timeout_due now1 r)) eqn:H1.
  - apply bool_decide_eq_true in H1.
    rewrite bool_decide_eq_true_2 by by apply (timeout_due_earlier now1).
    simpl. by constructor.
  - destruct (bool_decide (timeout_due now2 r)); simpl; [by constructor|done].
Qed.

Lemma check_flow_timeouts_task_ok token push_fails now w :
  lock_free "check_flow_timeouts" w ->
  (forall r, In r (runs w) -> push_fails (timeout_event r) = false) ->
  check_flow_timeouts_task token push_fails now w
  = Ret tt (set_queue
              (fun q => (q ++ List.map timeout_event
                                (List.filter (fun r => bool_decide (timeout_due now r)) (runs w)))%list)
              w).
Proof.
  intros Hfree Hok. rewrite check_flow_timeouts_task_free by done. simpl.
  destruct (published_all push_fails
              (List.filter (fun r => bool_decide (timeout_due now r)) (runs w)))
    as [-> ->]; [|done].
  intros r Hin. apply filter_In in Hin as [Hin _]. by apply Hok.
Qed.

Lemma set_queue_app xs ys w :
  set_queue (fun q => (q ++ ys)%list) (set_queue (fun q => (q ++ xs)%list) w)
  = set_queue (fun q : list QueuedTask => (q ++ (xs ++ ys))%list) w.
Proof. world_eq. by rewrite app_assoc. Qed.

(** X3: The timeout sweeper keeps no record of what it has published: a
    second sweep at the same or a later time, nothing having handled the
    runs in between, publishes every event of the first sweep once more,
    together with the events of the runs that have come due since. Each
    sweep publishes the events of its due runs in the order its query
    yields them; nothing is said here about that order. *)
Theorem check_flow_timeouts_task_publishes_again token push_fails now1 now2 w :
  lock_free "check_flow_timeouts" w ->
  (forall r, In r (runs w) -> push_fails (timeout_event r) = false) ->
  now1 <= now2 ->
  exists w1 first second,
    check_flow_timeouts_task token push_fails now1 w = Ret tt w1
    /\ check_flow_timeouts_task token push_fails now2 w1
       = Ret tt (set_queue (fun q => (q ++ (first ++ second))%list) w)
    /\ first ≡ₚ List.map timeout_event
                  (List.filter (fun r => bool_decide (timeout_due now1 r)) (runs w))
    /\ second ≡ₚ List.map timeout_event
                   (List.filter (fun r => bool_decide (timeout_due now2 r)) (runs w))
    /\ first ⊆+ second.
Proof.
  intros Hfree Hok Hle. eexists _, _, _.
  split; [by apply check_flow_timeouts_task_ok|].
  split; [|split; [reflexivity|split; [reflexivity|]]].
  - rewrite check_flow_timeouts_task_ok by done. f_equal. simpl.
    apply set_queue_app.
  - apply sublist_submseteq. by apply timeout_rows_grow.
Qed.

Lemma check_flow_timeouts_task_publishes_again_witness :
  exists w1 first second,
    check_flow_timeouts_task "9c1e" (fun _ => false) 10 Sample.world = Ret tt w1
    /\ check_flow_timeouts_task "9c1e" (fun _ => false) 11 w1
       = Ret tt (set_queue (fun q => (q ++ (first ++ second))%list) Sample.world)
    /\ first ≡ₚ List.map timeout_event
                  (List.filter (fun r => bool_decide (timeout_due 10 r)) (runs Sample.world))
    /\ second ≡ₚ List.map timeout_event
                   (List.filter (fun r => bool_decide (timeout_due 11 r)) (runs Sample.world))
    /\ first ⊆+ second.
Proof.
  apply (check_flow_timeouts_task_publishes_again "9c1e" (fun _ => false) 10 11 Sample.world).
  - reflexivity.
  - intros r _. reflexivity.
  - lia.
Defined.

(** X4: A sweep stopped by a failing publish call has given the lock back, so
    the next sweep is not skipped: it starts from the first due run again,
    and the runs published before the failure get their event a second
    time. *)
Theorem check_flow_timeouts_task_retry token push_fails push_fails' now w before bad after :
  lock_free "check_flow_timeouts" w ->
  List.filter (fun r => bool_decide (timeout_due now r)) (runs w) = (before ++ bad :: after)%list ->
  (forall r, In r before -> push_fails (timeout_event r) = false) ->
  push_fails (timeout_event bad) = true ->
  (forall r, In r (runs w) -> push_fails' (timeout_event r) = false) ->
  exists w1,
    check_flow_timeouts_task token push_fails now w = Raise PushError w1
    /\ lock_free "check_flow_timeouts" w1
    /\ check_flow_timeouts_task token push_fails' now w1
       = Ret tt (set_queue
                   (fun q => (q ++ (List.map timeout_event before
                                    ++ List.map timeout_event (before ++ bad :: after)))%list)
                   w).
Proof.
  intros Hfree Hrows Hok Hbad Hok'. eexists. split; [|split].
  - rewrite check_flow_timeouts_task_free by done. simpl. rewrite Hrows.
    by destruct (published_until push_fails before bad after Hok Hbad) as [-> ->].
  - done.
  - rewrite check_flow_timeouts_task_ok by done. simpl. rewrite Hrows.
    apply f_equal, set_queue_app.
Qed.

Lemma check_flow_timeouts_task_retry_witness :
  exists w1,
    check_flow_timeouts_task "9c1e" (Sample.fails_for 2) 10 Sample.world = Raise PushError w1
    /\ lock_free "check_flow_timeouts" w1
    /\ check_flow_timeouts_task "9c1e" (fun _ => false) 10 w1
       = Ret tt (set_queue
                   (fun q => (q ++ (List.map timeout_event [Sample.run 1 true (Some 5) (Some 10)]
                                    ++ List.map timeout_event
                                         ([Sample.run 1 true (Some 5) (Some 10)]
                                          ++ Sample.run 2 true (Some 11) (Some 9) :: [])))%list)
                   Sample.world).
Proof.
  apply (check_flow_timeouts_task_retry "9c1e" (Sample.fails_for 2) (fun _ => false) 10
           Sample.world [Sample.run 1 true (Some 5) (Some 10)]
           (Sample.run 2 true (Some 11) (Some 9)) []).
  - reflexivity.
  - reflexivity.
  - intros r [<-|[]]. reflexivity.
  - reflexivity.
  - intros r _. reflexivity.
Defined.

(** The rows the timeout sweeper finds after a bulk exit of the runs due
    for expiry: the due ones that were not exited. *)
Lemma timeout_rows_after_exit now now' table :
  List.filter (fun r => bool_decide (timeout_due now' r))
    (FlowRun.bulk_exit_table
       (fun r => Bool.eqb (FlowRun.is_active r) true && FlowRun.lte (FlowRun.expires_on r) now)
       FlowRun.EXIT_TYPE_EXPIRED table)
  = List.filter (fun r => bool_decide (timeout_due now' r /\ ~ expiry_due now r)) table.
Proof.
  unfold FlowRun.bulk_exit_table. induction table as [|r table IH]; simpl; [done|].
  rewrite IH. destruct (_ && _) eqn:Hq.
  - apply expiry_filter_spec in Hq.
    rewrite bool_decide_eq_false_2 by (intros [Hact _]; discriminate).
    rewrite bool_decide_eq_false_2 by (intros [_ Hn]; contradiction). done.
  - assert (Hn : ~ expiry_due now r).
    { intros Hdue. apply expiry_filter_spec in Hdue. congruence. }
    rewrite (bool_decide_ext (timeout_due now' r /\ ~ expiry_due now r) (timeout_due now' r));
      [done|]. tauto.
Qed.

(** X5: The expiry sweeper and the timeout sweeper both look at live runs only,
    so a run the expiry sweeper has just exited is never resumed: a timeout
    sweep that follows an expiry sweep publishes the events of the runs due
    for timeout that were not due for expiry, and no others. *)
Theorem check_flow_timeouts_task_after_expiry token push_fails now now' w :
  lock_free "check_flows" w ->
  lock_free "check_flow_timeouts" w ->
  (forall r, In r (runs w) -> push_fails (timeout_event r) = false) ->
  exists w1,
    check_flows_task token now w = Ret tt w1
    /\ check_flow_timeouts_task token push_fails now' w1
       = Ret tt
           (set_queue
              (fun q => (q ++ List.map timeout_event
                                (List.filter
                                   (fun r => bool_decide (timeout_due now' r /\ ~ expiry_due now r))
                                   (runs w)))%list)
              w1).
Proof.
  intros Hfree Hfree' Hok. eexists. split; [by apply check_flows_task_free|].
  rewrite check_flow_timeouts_task_free by done. simpl.
  rewrite timeout_rows_after_exit.
  destruct (published_all push_fails
              (List.filter (fun r => bool_decide (timeout_due now' r /\ ~ expiry_due now r))
                 (runs w))) as [-> ->]; [|done].
  intros r Hin. apply filter_In in Hin as [Hin _]. by apply Hok.
Qed.

Lemma check_flow_timeouts_task_after_expiry_witness :
  exists w1,
    check_flows_task "9c1e" 10 Sample.world = Ret tt w1
    /\ check_flow_timeouts_task "9c1e" (fun _ => false) 10 w1
       = Ret tt
           (set_queue
              (fun q => (q ++ List.map timeout_event
                                (List.filter
                                   (fun r => bool_decide (timeout_due 10 r /\ ~ expiry_due 10 r))
                                   (runs Sample.world)))%list)
              w1).
Proof.
  apply (check_flow_timeouts_task_after_expiry "9c1e" (fun _ => false) 10 10 Sample.world).
  - reflexivity.
  - reflexivity.
  - intros r _. reflexivity.
Defined.

(** On the sample world run 1 is due for both at time 10: swept for expiry
    first, only run 2 is left to resume. *)
Example check_flow_timeouts_task_after_expiry_sample :
  option_map (fun w => List.map task_args (queue w))
    (match check_flows_task "9c1e" 10 Sample.world with
     | Ret _ w1 => world_of (check_flow_timeouts_task "9c1e" (fun _ => false) 10 w1)
     | _ => None
     end)
  = Some [ ({[ "type" := VStr "timeout"; "run" := VInt 2; "timeout_on" := VDatetime (Some 9) ]}
            : gmap string PyVal) ].
Proof. vm_compute. reflexivity. Qed.

Lemma check_flows_task_stale_lock token now w :
  redis w !! "check_flows" = Some "" -> check_flows_task token now w = Blocked.
Proof.
  intros Hstale. unfold check_flows_task, bind, redis_get, gets.
  rewrite Hstale. simpl. unfold redis_lock. by rewrite Hstale.
Qed.

Lemma lock_free_other_key key other v w :
  other <> key -> lock_free key w -> lock_free key (set_redis (insert other v) w).
Proof. unfold lock_free. intros Hne Hfree. simpl. by rewrite lookup_insert_ne. Qed.

Lemma lock_held_other_key key other v w :
  other <> key -> lock_held key w -> lock_held key (set_redis (insert other v) w).
Proof.
  intros Hne (token & Htok & Hnonempty). exists token. split; [|done].
  simpl. by rewrite lookup_insert_ne.
Qed.

(** X6: A sweeper reads and writes one entry of the cache store, its own lock:
    whatever is stored under any other key, be it the lock of the other
    sweeper or a cached statistic, the sweep runs as it would without it
    and leaves that entry alone. *)
Theorem sweep_ignores_other_keys token push_fails now s key v w :
  key <> sweeper_lock s ->
  sweep token push_fails now s (set_redis (insert key v) w)
  = res_map (set_redis (insert key v)) (sweep token push_fails now s w).
Proof.
  intros Hne.
  destruct (lock_cases (sweeper_lock s) w) as [Hfree|[Hheld|Hstale]].
  - pose proof (lock_free_other_key _ _ v _ Hne Hfree) as Hfree'.
    destruct s; simpl in *.
    + rewrite !check_flows_task_free by done. by destruct w.
    + rewrite !check_flow_timeouts_task_free by done. simpl.
      by destruct (forallb _ _), w.
  - pose proof (lock_held_other_key _ _ v _ Hne Hheld) as Hheld'.
    destruct s; simpl in *.
    + by rewrite !check_flows_task_held.
    + by rewrite !check_flow_timeouts_task_held.
  - assert (Hstale' : redis (set_redis (insert key v) w) !! sweeper_lock s = Some "").
    { simpl. by rewrite lookup_insert_ne. }
    destruct s; simpl in *.
    + by rewrite !check_flows_task_stale_lock.
    + by rewrite !check_flow_timeouts_task_stale.
Qed.

Lemma sweep_ignores_other_keys_witness :
  sweep "9c1e" (fun _ => false) 10 TimeoutSweeper
    (set_redis (insert "check_flows" "0f3a") Sample.world)
  = res_map (set_redis (insert "check_flows" "0f3a"))
      (sweep "9c1e" (fun _ => false) 10 TimeoutSweeper Sample.world).
Proof.
  apply (sweep_ignores_other_keys "9c1e" (fun _ => false) 10 TimeoutSweeper
           "check_flows" "0f3a" Sample.world).
  discriminate.
Defined.

(** ** More on the flow statistics tasks *)

(** X7: No flow with the given id: both statistics tasks end with
    [Flow.DoesNotExist] before reading the cache, and change nothing. *)
Theorem stats_tasks_unknown_flow get_stats_cache_key flow_id w :
  (forall flow, In flow (flows w) -> Flow.pk flow <> flow_id) ->
  check_flow_stats_accuracy_task get_stats_cache_key flow_id w = Raise DoesNotExist w
  /\ calculate_flow_stats_task get_stats_cache_key flow_id w = Raise DoesNotExist w.
Proof.
  intros Hnone.
  assert (Hget : Flow_objects_get flow_id w = Raise DoesNotExist w).
  { unfold Flow_objects_get.
    destruct (List.filter _ _) as [|f rest] eqn:Hf; [done|].
    assert (Hin : In f (List.filter (fun f => Flow.pk f =? flow_id) (flows w)))
      by (rewrite Hf; simpl; auto).
    apply filter_In in Hin as [Hin Hpk]. apply Z.eqb_eq in Hpk.
    by destruct (Hnone f Hin). }
  unfold check_flow_stats_accuracy_task, calculate_flow_stats_task, bind.
  by rewrite Hget.
Qed.

Lemma stats_tasks_unknown_flow_witness :
  check_flow_stats_accuracy_task Sample.cache_key 2 Sample.world
  = Raise DoesNotExist Sample.world
  /\ calculate_flow_stats_task Sample.cache_key 2 Sample.world
     = Raise DoesNotExist Sample.world.
Proof.
  apply (stats_tasks_unknown_flow Sample.cache_key 2 Sample.world).
  intros flow [<-|[]]. vm_compute. discriminate.
Defined.

(** X8: A cached entry that is no integer is never repaired: both statistics
    tasks end with [ValueError] at [int(...)], before the counts are
    compared, so nothing is logged, no recompute is sent and the entry stays
    as it is. *)
Theorem stats_tasks_corrupt_cache get_stats_cache_key flow_id w flow text :
  Flow_objects_get flow_id w = Ret flow w ->
  redis w !! get_stats_cache_key flow runs_started_count = Some text ->
  Py.int text = None ->
  check_flow_stats_accuracy_task get_stats_cache_key flow_id w = Raise ValueError w
  /\ calculate_flow_stats_task get_stats_cache_key flow_id w = Raise ValueError w.
Proof.
  intros Hflow Htext Hint.
  assert (Hread : read_runs_started_cached get_stats_cache_key flow w = Raise ValueError w).
  { by rewrite read_runs_started_cached_spec, Htext, Hint. }
  split.
  - unfold check_flow_stats_accuracy_task. unfold bind at 1. rewrite Hflow.
    unfold bind at 1. by rewrite Hread.
  - unfold calculate_flow_stats_task. unfold bind at 1. rewrite Hflow.
    unfold bind at 1. by rewrite Hread.
Qed.

Lemma stats_tasks_corrupt_cache_witness :
  check_flow_stats_accuracy_task Sample.cache_key 1
    (Sample.cached "flow:1:runs_started_count" "4.0")
  = Raise ValueError (Sample.cached "flow:1:runs_started_count" "4.0")
  /\ calculate_flow_stats_task Sample.cache_key 1
       (Sample.cached "flow:1:runs_started_count" "4.0")
     = Raise ValueError (Sample.cached "flow:1:runs_started_count" "4.0").
Proof.
  apply (stats_tasks_corrupt_cache Sample.cache_key 1
           (Sample.cached "flow:1:runs_started_count" "4.0") Sample.flow1 "4.0");
    reflexivity.
Defined.

Lemma Flow_objects_get_set_redis f pk w flow :
  Flow_objects_get pk w = Ret flow w ->
  Flow_objects_get pk (set_redis f w) = Ret flow (set_redis f w).
Proof.
  unfold Flow_objects_get. simpl.
  destruct (List.filter _ _) as [|f0 [|f1 rest]]; congruence.
Qed.

(** X9: Once the recompute task has returned, the cache agrees with the
    authoritative count: the cached entry reads as the count, an accuracy
    check that follows finds nothing to report, and a second recompute
    writes nothing. *)
Theorem calculate_flow_stats_task_heals get_stats_cache_key flow_id w flow cached :
  Flow_objects_get flow_id w = Ret flow w ->
  read_runs_started_cached get_stats_cache_key flow w = Ret cached w ->
  exists w',
    calculate_flow_stats_task get_stats_cache_key flow_id w = Ret tt w'
    /\ read_runs_started_cached get_stats_cache_key flow w' = Ret (runs_started flow w') w'
    /\ check_flow_stats_accuracy_task get_stats_cache_key flow_id w' = Ret tt w'
    /\ calculate_flow_stats_task get_stats_cache_key flow_id w' = Ret tt w'.
Proof.
  intros Hflow Hcached.
  assert (Hsettled : forall w',
    Flow_objects_get flow_id w' = Ret flow w' ->
    read_runs_started_cached get_stats_cache_key flow w' = Ret (runs_started flow w') w' ->
    check_flow_stats_accuracy_task get_stats_cache_key flow_id w' = Ret tt w'
    /\ calculate_flow_stats_task get_stats_cache_key flow_id w' = Ret tt w').
  { intros w' Hflow' Hread'.
    rewrite (check_flow_stats_accuracy_task_run _ _ _ _ _ Hflow' Hread').
    rewrite (calculate_flow_stats_task_run _ _ _ _ _ Hflow' Hread').
    by rewrite Z.eqb_refl. }
  rewrite (calculate_flow_stats_task_run _ _ _ _ _ Hflow Hcached).
  destruct (Z.eqb_spec (runs_started flow w) cached) as [Heq|Hne].
  - exists w. subst cached. split; [done|]. split; [done|]. by apply Hsettled.
  - eexists. split; [reflexivity|].
    assert (Hread' :
      read_runs_started_cached get_stats_cache_key flow
        (set_redis (insert (get_stats_cache_key flow runs_started_count)
                      (Py.str (runs_started flow w))) w)
      = Ret (runs_started flow w)
          (set_redis (insert (get_stats_cache_key flow runs_started_count)
                        (Py.str (runs_started flow w))) w)).
    { rewrite read_runs_started_cached_spec. simpl. by rewrite lookup_insert_eq, int_str. }
    split; [done|]. apply Hsettled; [|done]. by apply Flow_objects_get_set_redis.
Qed.

Lemma calculate_flow_stats_task_heals_witness :
  exists w',
    calculate_flow_stats_task Sample.cache_key 1
      (Sample.cached "flow:1:runs_started_count" "3") = Ret tt w'
    /\ read_runs_started_cached Sample.cache_key Sample.flow1 w'
       = Ret (runs_started Sample.flow1 w') w'
    /\ check_flow_stats_accuracy_task Sample.cache_key 1 w' = Ret tt w'
    /\ calculate_flow_stats_task Sample.cache_key 1 w' = Ret tt w'.
Proof.
  apply (calculate_flow_stats_task_heals Sample.cache_key 1
           (Sample.cached "flow:1:runs_started_count" "3") Sample.flow1 3);
    reflexivity.
Defined.

Lemma Flow_objects_get_pk pk w flow w' :
  Flow_objects_get pk w = Ret flow w' -> Flow.pk flow = pk.
Proof.
  unfold Flow_objects_get.
  destruct (List.filter _ _) as [|f [|f' rest]] eqn:Hf; try discriminate.
  intros [= <- _].
  assert (Hin : In f (List.filter (fun f => Flow.pk f =? pk) (flows w)))
    by (rewrite Hf; simpl; auto).
  apply filter_In in Hin as [_ Hpk]. by apply Z.eqb_eq.
Qed.

Lemma Flow_objects_get_insert_run pk r w :
  Flow_objects_get pk (insert_run r w) = res_map (insert_run r) (Flow_objects_get pk w).
Proof.
  unfold Flow_objects_get. simpl.
  by destruct (List.filter _ _) as [|f [|f' rest]].
Qed.

Lemma runs_started_insert_run flow r w :
  real_runs_of flow r = false ->
  runs_started flow (insert_run r w) = runs_started flow w.
Proof.
  intros Hr. unfold runs_started. simpl.
  rewrite List.filter_app. simpl. rewrite Hr. by rewrite app_nil_r.
Qed.

Lemma not_real_run flow r :
  Contact.is_test (FlowRun.contact r) = true \/ FlowRun.flow_id r <> Flow.pk flow ->
  real_runs_of flow r = false.
Proof.
  unfold real_runs_of. intros [->|Hne].
  - apply andb_false_r.
  - apply Z.eqb_neq in Hne. by rewrite Hne.
Qed.

(** X10: The statistics tasks count the runs of their own flow whose contact is
    no test contact, and nothing else: a new run of a test contact, or of
    another flow, changes neither what the accuracy check reports nor what
    the recompute task writes. *)
Theorem stats_tasks_ignore_other_runs get_stats_cache_key flow_id r w :
  Contact.is_test (FlowRun.contact r) = true \/ FlowRun.flow_id r <> flow_id ->
  check_flow_stats_accuracy_task get_stats_cache_key flow_id (insert_run r w)
  = res_map (insert_run r) (check_flow_stats_accuracy_task get_stats_cache_key flow_id w)
  /\ calculate_flow_stats_task get_stats_cache_key flow_id (insert_run r w)
     = res_map (insert_run r) (calculate_flow_stats_task get_stats_cache_key flow_id w).
Proof.
  intros Hother.
  destruct (Flow_objects_get flow_id w) as [flow w0|e w0|] eqn:Hflow.
  - pose proof (Flow_objects_get_pk _ _ _ _ Hflow) as Hpk.
    apply Flow_objects_get_world in Hflow as Hw0. subst w0.
    assert (Hflow' : Flow_objects_get flow_id (insert_run r w) = Ret flow (insert_run r w)).
    { by rewrite Flow_objects_get_insert_run, Hflow. }
    assert (Hcount : runs_started flow (insert_run r w) = runs_started flow w).
    { apply runs_started_insert_run, not_real_run. by rewrite Hpk. }
    pose proof (read_runs_started_cached_spec get_stats_cache_key flow w) as Hread.
    pose proof (read_runs_started_cached_spec get_stats_cache_key flow (insert_run r w))
      as Hread'.
    change (redis (insert_run r w)) with (redis w) in Hread'.
    destruct (redis w !! _) as [s|]; [destruct (Py.int s) as [n|]|].
    + rewrite (check_flow_stats_accuracy_task_run _ _ _ _ _ Hflow' Hread').
      rewrite (calculate_flow_stats_task_run _ _ _ _ _ Hflow' Hread').
      rewrite (check_flow_stats_accuracy_task_run _ _ _ _ _ Hflow Hread).
      rewrite (calculate_flow_stats_task_run _ _ _ _ _ Hflow Hread).
      rewrite Hcount. by destruct (runs_started flow w =? n).
    + unfold check_flow_stats_accuracy_task, calculate_flow_stats_task.
      split; unfold bind at 1; rewrite Hflow'; unfold bind at 1; rewrite Hread';
        unfold bind at 1; rewrite Hflow; unfold bind at 1; by rewrite Hread.
    + rewrite (check_flow_stats_accuracy_task_run _ _ _ _ _ Hflow' Hread').
      rewrite (calculate_flow_stats_task_run _ _ _ _ _ Hflow' Hread').
      rewrite (check_flow_stats_accuracy_task_run _ _ _ _ _ Hflow Hread).
      rewrite (calculate_flow_stats_task_run _ _ _ _ _ Hflow Hread).
      rewrite Hcount. by destruct (runs_started flow w =? 0).
  - unfold check_flow_stats_accuracy_task, calculate_flow_stats_task, bind.
    by rewrite Flow_objects_get_insert_run, Hflow.
  - by apply Flow_objects_get_never_blocks in Hflow.
Qed.

Lemma stats_tasks_ignore_other_runs_witness :
  check_flow_stats_accuracy_task Sample.cache_key 1 (insert_run sample_test_run Sample.world)
  = res_map (insert_run sample_test_run)
      (check_flow_stats_accuracy_task Sample.cache_key 1 Sample.world)
  /\ calculate_flow_stats_task Sample.cache_key 1 (insert_run sample_test_run Sample.world)
     = res_map (insert_run sample_test_run)
         (calculate_flow_stats_task Sample.cache_key 1 Sample.world).
Proof.
  apply (stats_tasks_ignore_other_runs Sample.cache_key 1 sample_test_run Sample.world).
  left. reflexivity.
Defined.

(** ** The words of a pattern *)

Lemma append_empty_l (y : string) : (EmptyString ++ y)%string = y.
Proof. reflexivity. Qed.

Lemma append_String c (x y : string) : (String c x ++ y)%string = String c (x ++ y)%string.
Proof. reflexivity. Qed.

Lemma In_words_Seq a b s :
  In s (Re.words (Re.Seq a b))
  <-> exists x y, In x (Re.words a) /\ In y (Re.words b) /\ s = (x ++ y)%string.
Proof.
  simpl. rewrite in_flat_map. split.
  - intros (x & Hx & Hs). apply in_map_iff in Hs as (y & <- & Hy). eauto.
  - intros (x & y & Hx & Hy & ->). exists x. split; [done|]. apply in_map_iff. eauto.
Qed.

Lemma nullable_words r : Re.nullable r = true <-> In EmptyString (Re.words r).
Proof.
  induction r as [| |c|a IHa b IHb|a IHa b IHb|a IHa].
  - simpl. split; [discriminate|tauto].
  - simpl. split; auto.
  - simpl. split; [discriminate|]. by intros [?|[]].
  - rewrite In_words_Seq. simpl. rewrite andb_true_iff, IHa, IHb. split.
    + intros [Ha Hb]. by exists EmptyString, EmptyString.
    + intros (x & y & Hx & Hy & Hxy). destruct x; [|discriminate].
      rewrite append_empty_l in Hxy. by subst y.
  - simpl. rewrite orb_true_iff, in_app_iff, IHa, IHb. done.
  - simpl. split; auto.
Qed.

Lemma deriv_words c r s :
  In s (Re.words (Re.deriv c r)) <-> In (String c s) (Re.words r).
Proof.
  revert s. induction r as [| |d|a IHa b IHb|a IHa b IHb|a IHa]; intros s.
  - simpl. tauto.
  - simpl. split; [tauto|]. by intros [?|[]].
  - simpl. destruct (Ascii.eqb_spec c d) as [->|Hne]; simpl.
    + split; [intros [<-|[]]; by left|]. intros [[= <-]|[]]. by left.
    + split; [tauto|]. intros [[= ? ?]|[]]. congruence.
  - assert (Hstep :
      In s (Re.words (Re.Seq (Re.deriv c a) b))
      <-> exists x y, In (String c x) (Re.words a) /\ In y (Re.words b) /\ s = (x ++ y)%string).
    { rewrite In_words_Seq. split.
      - intros (x & y & Hx & Hy & ->). apply IHa in Hx. eauto.
      - intros (x & y & Hx & Hy & ->). apply IHa in Hx. eauto. }
    rewrite (In_words_Seq a b). simpl Re.deriv.
    destruct (Re.nullable a) eqn:Hnull.
    + simpl Re.words. rewrite in_app_iff.
      change (List.flat_map _ (Re.words (Re.deriv c a)))
        with (Re.words (Re.Seq (Re.deriv c a) b)).
      rewrite Hstep, IHb. split.
      * intros [(x & y & Hx & Hy & ->)|Hb].
        -- by exists (String c x), y.
        -- apply nullable_words in Hnull. by exists EmptyString, (String c s).
      * intros (x & y & Hx & Hy & Hxy). destruct x as [|c' x].
        -- rewrite append_empty_l in Hxy. subst y. by right.
        -- rewrite append_String in Hxy. injection Hxy as <- ->. left. eauto.
    + rewrite Hstep. split.
      * intros (x & y & Hx & Hy & ->). by exists (String c x), y.
      * intros (x & y & Hx & Hy & Hxy). destruct x as [|c' x].
        -- apply nullable_words in Hx. congruence.
        -- rewrite append_String in Hxy. injection Hxy as <- ->. eauto.
  - simpl. rewrite !in_app_iff, IHa, IHb. done.
  - simpl. rewrite IHa. split; [by right|]. by intros [?|?].
Qed.

(** The matcher accepts exactly the words of the pattern. *)
Lemma matches_words r s : Re.matches r s = true <-> In s (Re.words r).
Proof.
  revert r. induction s as [|c s IH]; intros r; simpl.
  - apply nullable_words.
  - rewrite IH. apply deriv_words.
Qed.

(** ** Resolving the paths of the API *)

Lemma pattern_matches_words p path :
  Urls.pattern_matches p path = true <-> In path (Urls.pattern_words p).
Proof.
  unfold Urls.pattern_matches, Urls.pattern_words.
  destruct (Re.compile (Urls.regex p)) as [r|]; [apply matches_words|].
  simpl. split; [discriminate|tauto].
Qed.

Lemma same_route_spec p q :
  Urls.same_route p q = true
  <-> Urls.callback p = Urls.callback q /\ Urls.name p = Urls.name q.
Proof. unfold Urls.same_route. by rewrite andb_true_iff, !String.eqb_eq. Qed.

Lemma same_entry_spec p q : Urls.same_entry p q = true <-> p = q.
Proof.
  unfold Urls.same_entry. rewrite andb_true_iff, same_route_spec, String.eqb_eq.
  destruct p, q; simpl. split; [intros (-> & -> & ->); done|]. by intros [= -> -> ->].
Qed.

Lemma existsb_eqb_In x (l : list string) : existsb (String.eqb x) l = true <-> In x l.
Proof.
  rewrite existsb_exists. split.
  - intros (y & Hy & Heq). apply String.eqb_eq in Heq. by subst y.
  - intros Hx. exists x. split; [done|]. apply String.eqb_refl.
Qed.

(** Every pattern of the table is one the model reads. *)
Lemma urlpatterns_compile p :
  In p Urls.urlpatterns -> Re.compile (Urls.regex p) <> None.
Proof.
  intros Hin.
  assert (Hall : forallb (fun p => match Re.compile (Urls.regex p) with
                                   | Some _ => true
                                   | None => false
                                   end) Urls.urlpatterns = true)
    by (vm_compute; reflexivity).
  rewrite forallb_forall in Hall. specialize (Hall p Hin).
  by destruct (Re.compile (Urls.regex p)).
Qed.

Lemma check_unambiguous_holds : Urls.check_unambiguous = true.
Proof. vm_compute. reflexivity. Qed.

(** X11: No request path is claimed by two routes: whenever two entries of the
    table match the same path they have the same view and the same name, so
    the order of the entries decides nothing about which view answers. *)
Theorem resolve_unambiguous path p q :
  In p Urls.urlpatterns ->
  In q Urls.urlpatterns ->
  Urls.pattern_matches p path = true ->
  Urls.pattern_matches q path = true ->
  Urls.callback p = Urls.callback q /\ Urls.name p = Urls.name q.
Proof.
  intros Hp Hq Hmp Hmq. apply same_route_spec.
  pose proof check_unambiguous_holds as Hcheck. unfold Urls.check_unambiguous in Hcheck.
  rewrite forallb_forall in Hcheck. specialize (Hcheck p Hp).
  rewrite forallb_forall in Hcheck. specialize (Hcheck q Hq).
  apply orb_true_iff in Hcheck as [Hsame|Hnone]; [done|].
  apply negb_true_iff in Hnone.
  assert (Hshare : Urls.share_a_path p q = true).
  { unfold Urls.share_a_path. apply existsb_exists. exists path.
    split; [by apply pattern_matches_words|].
    apply existsb_eqb_In. by apply pattern_matches_words. }
  congruence.
Qed.

Lemma resolve_unambiguous_witness :
  Urls.callback (Urls.url "^/runs$" "RunsEndpoint" "api.v2.runs")
  = Urls.callback (Urls.url "^/runs$" "RunsEndpoint" "api.v2.runs")
  /\ Urls.name (Urls.url "^/runs$" "RunsEndpoint" "api.v2.runs")
     = Urls.name (Urls.url "^/runs$" "RunsEndpoint" "api.v2.runs").
Proof.
  apply (resolve_unambiguous "/runs"
           (Urls.url "^/runs$" "RunsEndpoint" "api.v2.runs")
           (Urls.url "^/runs$" "RunsEndpoint" "api.v2.runs")).
  - vm_compute. tauto.
  - vm_compute. tauto.
  - reflexivity.
  - reflexivity.
Defined.

Lemma check_written_holds p :
  In p Urls.urlpatterns_written -> Urls.check_written p = true.
Proof.
  assert (Hall : forallb Urls.check_written Urls.urlpatterns_written = true)
    by (vm_compute; reflexivity).
  rewrite forallb_forall in Hall. apply Hall.
Qed.

Lemma check_only_written_holds q :
  In q Urls.urlpatterns -> Urls.check_only_written q = true.
Proof.
  assert (Hall : forallb Urls.check_only_written Urls.urlpatterns = true)
    by (vm_compute; reflexivity).
  rewrite forallb_forall in Hall. apply Hall.
Qed.

(** X12: The paths the API answers, all of them: a path resolves to the view
    [view] under the name [route] exactly when the written table has an
    entry with that view and name and the path is the entry's written path,
    or that path less its final slash followed by [.json] or [.api] and an
    optional slash, in each case possibly ended by one newline. Nothing
    else resolves: no other format suffix, and no slash added to a plain
    path. *)
Theorem resolve_spec path view route :
  (exists q, Urls.resolve path = Some q /\ Urls.callback q = view /\ Urls.name q = route)
  <-> exists p, In p Urls.urlpatterns_written
                /\ Urls.callback p = view /\ Urls.name p = route
                /\ In path (Urls.paths_of p).
Proof.
  split.
  - intros (q & Hres & <- & <-). unfold Urls.resolve in Hres.
    apply find_some in Hres as [Hq Hm]. apply pattern_matches_words in Hm.
    pose proof (check_only_written_holds q Hq) as Hcheck.
    unfold Urls.check_only_written in Hcheck.
    destruct (Re.compile (Urls.regex q)) as [r|]; [|discriminate].
    rewrite forallb_forall in Hcheck. specialize (Hcheck path Hm).
    apply existsb_exists in Hcheck as (p & Hp & Hboth).
    apply andb_true_iff in Hboth as [Hroute Hpath].
    apply same_route_spec in Hroute as [Hc Hn]. apply existsb_eqb_In in Hpath.
    exists p. by rewrite Hc, Hn.
  - intros (p & Hp & <- & <- & Hpath).
    pose proof (check_written_holds p Hp) as Hcheck. unfold Urls.check_written in Hcheck.
    apply andb_true_iff in Hcheck as [_ Hall].
    rewrite forallb_forall in Hall. specialize (Hall path Hpath).
    unfold Urls.resolves_to_route in Hall.
    destruct (Urls.resolve path) as [q|]; [|discriminate].
    apply same_route_spec in Hall as [Hc Hn]. eauto.
Qed.

(** X13: Each entry of the written table has the form [^path$], and its path
    resolves to that very entry, not to the copy with the format suffix
    that follows it in the table. *)
Theorem written_path_resolves p :
  In p Urls.urlpatterns_written ->
  Urls.regex p = ("^" ++ Urls.written_path p ++ "$")%string
  /\ Urls.resolve (Urls.written_path p) = Some p.
Proof.
  intros Hp. pose proof (check_written_holds p Hp) as Hcheck.
  unfold Urls.check_written in Hcheck.
  apply andb_true_iff in Hcheck as [Hcheck _].
  apply andb_true_iff in Hcheck as [Hform Hself].
  apply String.eqb_eq in Hform. split; [done|].
  destruct (Urls.resolve (Urls.written_path p)) as [q|]; [|discriminate].
  apply same_entry_spec in Hself. by subst q.
Qed.

Lemma written_path_resolves_witness :
  Urls.regex (Urls.url "^/explorer/$" "ApiExplorerView" "api.v2.explorer")
  = ("^" ++ Urls.written_path (Urls.url "^/explorer/$" "ApiExplorerView" "api.v2.explorer")
     ++ "$")%string
  /\ Urls.resolve
       (Urls.written_path (Urls.url "^/explorer/$" "ApiExplorerView" "api.v2.explorer"))
     = Some (Urls.url "^/explorer/$" "ApiExplorerView" "api.v2.explorer").
Proof.
  apply (written_path_resolves (Urls.url "^/explorer/$" "ApiExplorerView" "api.v2.explorer")).
  vm_compute. tauto.
Defined.

(** The explorer wants its slash, the endpoints refuse one, and only the two
    formats are served. *)
Example resolve_sample :
  option_map Urls.name (Urls.resolve "/explorer/") = Some "api.v2.explorer"
  /\ Urls.resolve "/explorer" = None
  /\ option_map Urls.name (Urls.resolve "/runs") = Some "api.v2.runs"
  /\ Urls.resolve "/runs/" = None
  /\ option_map Urls.name (Urls.resolve "/runs.json/") = Some "api.v2.runs"
  /\ Urls.resolve "/runs.xml" = None
  /\ option_map Urls.name (Urls.resolve ".api") = Some "api.v2".
Proof. vm_compute. repeat split. Qed.
